(** * ScholaChain: the governance registry and the certificate registry

    A shallow embedding of the two Solidity contracts of the repository,
    [ScholaChainGovernance] and [ScholaChain], and the properties of the
    specification checked against them.

    Conventions of the embedding:
    - [address] and [uint256] values are natural numbers of [N]; the
      arithmetic of Solidity 0.8 is checked, so [x++] and [x--] revert with
      [Panic(0x11)] instead of wrapping around;
    - a [mapping(address => T)] is a finite map read with the zero value of
      [T] as default;
    - a [string] is a byte string, [bytes(s).length] is [String.length];
    - an external function is a function of the call environment
      ([msg.sender], [block.timestamp]), its arguments and the storage, to
      a [result]: either the new storage, the returned value and the
      emitted events, or the failure that reverts the transaction. *)

From stdpp Require Import gmap strings list fin_maps.
From Stdlib Require Import NArith Lia Ascii.

Local Open Scope string_scope.
Local Open Scope N_scope.

(** ** Solidity basics *)

Module Solidity.

Definition address : Type := N.

(** [address(0)] *)
Definition address0 : address := 0.

(** A failed call: [require(c, reason)] reverts with [Error(reason)], a
    failed arithmetic check with [Panic(code)]. *)
Inductive failure : Type :=
  | Revert (reason : string)
  | Panic (code : N).

Inductive result (A : Type) : Type :=
  | Ok (a : A)
  | Fail (f : failure).

Arguments Ok {A} a.
Arguments Fail {A} f.

Definition bind {A B : Type} (r : result A) (k : A → result B) : result B :=
  match r with
  | Ok a => k a
  | Fail f => Fail f
  end.

Definition is_ok {A : Type} (r : result A) : bool :=
  match r with Ok _ => true | Fail _ => false end.

(** The environment of a call. *)
Record Env : Type := mkEnv {
  sender : address;      (* msg.sender *)
  timestamp : N          (* block.timestamp *)
}.

Definition UINT256_MAX : N := 2 ^ 256 - 1.

(** Panic code of an arithmetic overflow or underflow. *)
Definition ARITHMETIC : N := 17.

(** Panic code of an array access out of bounds. *)
Definition OUT_OF_BOUNDS : N := 50.

(** [x + y] and [x - y] on [uint256] *)
Definition checked_add (x y : N) : result N :=
  if decide (x + y ≤ UINT256_MAX) then Ok (x + y) else Fail (Panic ARITHMETIC).

Definition checked_sub (x y : N) : result N :=
  if decide (y ≤ x) then Ok (x - y) else Fail (Panic ARITHMETIC).

(** [x++] and [x--] on a [uint256] *)
Definition checked_incr (x : N) : result N := checked_add x 1.

Definition checked_decr (x : N) : result N := checked_sub x 1.

End Solidity.

Export Solidity.

Notation "'require' c 'orelse' msg ; k" :=
  (if decide c then k else Fail (Revert msg))
  (at level 10, c at level 99, msg at level 0, k at level 200,
   format "'[v' 'require'  c  'orelse'  msg ; '/' k ']'").

Notation "'let!' x := e 'in' k" :=
  (bind e (λ x, k))
  (at level 10, x name, e at level 99, k at level 200,
   format "'[v' 'let!'  x  :=  e  'in' '/' k ']'").

(** ** Roles, institutions and events *)

Inductive Role : Type :=
  | NONE          (* 0 - No role *)
  | ISSUER        (* 1 - Certificate issuer *)
  | SUPER_ADMIN.  (* 2 - System administrator *)

Global Instance Role_eq_dec : EqDecision Role.
Proof. solve_decision. Defined.

Record Institution : Type := mkInstitution {
  name : string;
  description : string;
  website : string;
  isActive : bool;
  registeredAt : N;
  role : Role
}.

(** The value a mapping returns for a key never written. *)
Definition zeroInstitution : Institution :=
  {| name := ""; description := ""; website := ""; isActive := false;
     registeredAt := 0; role := NONE |}.

Definition with_isActive (b : bool) (i : Institution) : Institution :=
  {| name := name i; description := description i; website := website i;
     isActive := b; registeredAt := registeredAt i; role := role i |}.

Definition with_role (r : Role) (i : Institution) : Institution :=
  {| name := name i; description := description i; website := website i;
     isActive := isActive i; registeredAt := registeredAt i; role := r |}.

Inductive Event : Type :=
  | InstitutionRegistered (institutionAddress : address) (name : string)
      (role : Role) (registeredBy : address)
  | InstitutionUpdated (institutionAddress : address) (name : string)
      (previousRole newRole : Role)
  | InstitutionStatusChanged (institutionAddress : address)
      (newStatus : bool) (changedBy : address)
  | InstitutionRevoked (institutionAddress : address) (reason : string)
      (revokedBy : address)
  | SuperAdminTransferred (previousAdmin newAdmin : address)
  | CertificateIssued (certificateId : N) (issuer holder : address)
      (documentHash ipfsCID : string) (issuedAt : N)
  | CertificateRevoked (certificateId : N) (revokedBy : address)
      (revokedAt : N).

(** ** The error taxonomy *)

(** The error kinds of the specification (its section 7). The contracts
    only carry revert strings. *)
Inductive ErrorKind : Type :=
  | InvalidArgument
  | Unauthorized
  | NotFound
  | AlreadyRegistered
  | AlreadyInactive
  | AlreadyRevoked
  | InvalidRole.

(** Reads a revert string of the two contracts as the kind the
    specification gives to the precondition it guards; an arithmetic panic
    has no kind. *)
Definition error_kind (f : failure) : option ErrorKind :=
  match f with
  | Panic _ => None
  | Revert msg =>
      if decide (msg = "ScholaChain: Only super admin") then Some Unauthorized
      else if decide (msg = "ScholaChain: Not authorized issuer") then Some Unauthorized
      else if decide (msg = "ScholaChain: Only issuer or super admin can revoke") then Some Unauthorized
      else if decide (msg = "ScholaChain: Invalid address") then Some InvalidArgument
      else if decide (msg = "ScholaChain: Name required") then Some InvalidArgument
      else if decide (msg = "ScholaChain: Invalid role") then Some InvalidArgument
      else if decide (msg = "ScholaChain: Invalid document hash") then Some InvalidArgument
      else if decide (msg = "ScholaChain: IPFS CID required") then Some InvalidArgument
      else if decide (msg = "ScholaChain: Invalid holder address") then Some InvalidArgument
      else if decide (msg = "ScholaChain: Cannot issue to self") then Some InvalidArgument
      else if decide (msg = "ScholaChain: Already registered") then Some AlreadyRegistered
      else if decide (msg = "ScholaChain: Institution not registered") then Some NotFound
      else if decide (msg = "ScholaChain: Not registered") then Some NotFound
      else if decide (msg = "ScholaChain: Certificate does not exist") then Some NotFound
      else if decide (msg = "ScholaChain: Institution already inactive") then Some AlreadyInactive
      else if decide (msg = "ScholaChain: Certificate already revoked") then Some AlreadyRevoked
      else if decide (msg = "ScholaChain: Can only revoke issuers") then Some InvalidRole
      else if decide (msg = "ScholaChain: Can only reactivate issuers") then Some InvalidRole
      else None
  end.

(** ** contract ScholaChainGovernance *)

Module Governance.

Record State : Type := mkState {
  institutions : gmap address Institution;
  authorizedIssuers : gmap address bool;
  superAdmin : address;
  totalInstitutions : N;
  activeIssuers : N
}.

(** [institutions[a]] *)
Definition institution (g : State) (a : address) : Institution :=
  default zeroInstitution (institutions g !! a).

(** [authorizedIssuers[a]] *)
Definition authorized (g : State) (a : address) : bool :=
  default false (authorizedIssuers g !! a).

Definition set_institution (a : address) (i : Institution) (g : State) : State :=
  {| institutions := <[a := i]> (institutions g);
     authorizedIssuers := authorizedIssuers g;
     superAdmin := superAdmin g;
     totalInstitutions := totalInstitutions g;
     activeIssuers := activeIssuers g |}.

Definition set_authorized (a : address) (b : bool) (g : State) : State :=
  {| institutions := institutions g;
     authorizedIssuers := <[a := b]> (authorizedIssuers g);
     superAdmin := superAdmin g;
     totalInstitutions := totalInstitutions g;
     activeIssuers := activeIssuers g |}.

Definition set_superAdmin (a : address) (g : State) : State :=
  {| institutions := institutions g;
     authorizedIssuers := authorizedIssuers g;
     superAdmin := a;
     totalInstitutions := totalInstitutions g;
     activeIssuers := activeIssuers g |}.

Definition set_totalInstitutions (n : N) (g : State) : State :=
  {| institutions := institutions g;
     authorizedIssuers := authorizedIssuers g;
     superAdmin := superAdmin g;
     totalInstitutions := n;
     activeIssuers := activeIssuers g |}.

Definition set_activeIssuers (n : N) (g : State) : State :=
  {| institutions := institutions g;
     authorizedIssuers := authorizedIssuers g;
     superAdmin := superAdmin g;
     totalInstitutions := totalInstitutions g;
     activeIssuers := n |}.

(** What a successful transaction produces: the storage after it, the
    returned value and the events. *)
Definition Outcome (A : Type) : Type := State * A * list Event.

(** [modifier onlySuperAdmin] *)
Definition onlySuperAdmin {A : Type} (e : Env) (g : State)
    (body : result A) : result A :=
  require (sender e = superAdmin g) orelse "ScholaChain: Only super admin";
  body.

(** The storage the constructor writes. *)
Definition genesis (now : N) (_ministryAddress : address) : State :=
  {| institutions :=
       {[ _ministryAddress :=
            {| name := "Ministry of Education";
               description := "Governing body for educational certification";
               website := "https://education.gov";
               isActive := true;
               registeredAt := now;
               role := SUPER_ADMIN |} ]};
     authorizedIssuers := ∅;
     superAdmin := _ministryAddress;
     totalInstitutions := 1;
     activeIssuers := 0 |}.

(** [constructor(address _ministryAddress)], deployed at address [self]. *)
Definition constructor (self : address) (now : N) (_ministryAddress : address)
    : result (State * list Event) :=
  require (_ministryAddress ≠ address0) orelse "ScholaChain: Invalid ministry address";
  Ok (genesis now _ministryAddress,
      [InstitutionRegistered _ministryAddress "Ministry of Education"
         SUPER_ADMIN self]).

Definition registerInstitution (e : Env) (_institutionAddress : address)
    (_name _description _website : string) (_role : Role) (g : State)
    : result (Outcome bool) :=
  onlySuperAdmin e g (
    require (_institutionAddress ≠ address0) orelse "ScholaChain: Invalid address";
    require (0 < String.length _name)%nat orelse "ScholaChain: Name required";
    require (role (institution g _institutionAddress) = NONE)
      orelse "ScholaChain: Already registered";
    require (_role ≠ NONE) orelse "ScholaChain: Invalid role";
    let g := set_institution _institutionAddress
               {| name := _name; description := _description;
                  website := _website; isActive := true;
                  registeredAt := timestamp e; role := _role |} g in
    let! n := checked_incr (totalInstitutions g) in
    let g := set_totalInstitutions n g in
    let! g :=
      (if decide (_role = ISSUER) then
         let g := set_authorized _institutionAddress true g in
         let! n := checked_incr (activeIssuers g) in
         Ok (set_activeIssuers n g)
       else Ok g) in
    Ok (g, true,
        [InstitutionRegistered _institutionAddress _name _role (sender e)])).

Definition revokeInstitution (e : Env) (_institutionAddress : address)
    (_reason : string) (g : State) : result (Outcome bool) :=
  onlySuperAdmin e g (
    require (_institutionAddress ≠ address0) orelse "ScholaChain: Invalid address";
    require (role (institution g _institutionAddress) ≠ NONE)
      orelse "ScholaChain: Institution not registered";
    require (isActive (institution g _institutionAddress) = true)
      orelse "ScholaChain: Institution already inactive";
    require (role (institution g _institutionAddress) = ISSUER)
      orelse "ScholaChain: Can only revoke issuers";
    let g := set_institution _institutionAddress
               (with_isActive false (institution g _institutionAddress)) g in
    let g := set_authorized _institutionAddress false g in
    let! n := checked_decr (activeIssuers g) in
    let g := set_activeIssuers n g in
    Ok (g, true,
        [InstitutionStatusChanged _institutionAddress false (sender e);
         InstitutionRevoked _institutionAddress _reason (sender e)])).

Definition reactivateInstitution (e : Env) (_institutionAddress : address)
    (g : State) : result (Outcome bool) :=
  onlySuperAdmin e g (
    require (_institutionAddress ≠ address0) orelse "ScholaChain: Invalid address";
    require (role (institution g _institutionAddress) ≠ NONE)
      orelse "ScholaChain: Institution not registered";
    require (isActive (institution g _institutionAddress) = false)
      orelse "ScholaChain: Institution already active";
    require (role (institution g _institutionAddress) = ISSUER)
      orelse "ScholaChain: Can only reactivate issuers";
    let g := set_institution _institutionAddress
               (with_isActive true (institution g _institutionAddress)) g in
    let g := set_authorized _institutionAddress true g in
    let! n := checked_incr (activeIssuers g) in
    let g := set_activeIssuers n g in
    Ok (g, true,
        [InstitutionStatusChanged _institutionAddress true (sender e)])).

Definition updateInstitutionRole (e : Env) (_institutionAddress : address)
    (_newRole : Role) (g : State) : result (Outcome bool) :=
  onlySuperAdmin e g (
    require (_institutionAddress ≠ address0) orelse "ScholaChain: Invalid address";
    require (role (institution g _institutionAddress) ≠ NONE)
      orelse "ScholaChain: Not registered";
    require (_newRole ≠ NONE) orelse "ScholaChain: Invalid role";
    let previousRole := role (institution g _institutionAddress) in
    let g := set_institution _institutionAddress
               (with_role _newRole (institution g _institutionAddress)) g in
    let! g :=
      (if decide (previousRole = ISSUER ∧ _newRole ≠ ISSUER) then
         let g := set_authorized _institutionAddress false g in
         if isActive (institution g _institutionAddress) then
           let! n := checked_decr (activeIssuers g) in
           Ok (set_activeIssuers n g)
         else Ok g
       else if decide (previousRole ≠ ISSUER ∧ _newRole = ISSUER) then
         let g := set_authorized _institutionAddress true g in
         if isActive (institution g _institutionAddress) then
           let! n := checked_incr (activeIssuers g) in
           Ok (set_activeIssuers n g)
         else Ok g
       else Ok g) in
    Ok (g, true,
        [InstitutionUpdated _institutionAddress
           (name (institution g _institutionAddress)) previousRole _newRole])).

Definition setInstitutionStatus (e : Env) (_institutionAddress : address)
    (_isActive : bool) (g : State) : result (Outcome bool) :=
  onlySuperAdmin e g (
    require (_institutionAddress ≠ address0) orelse "ScholaChain: Invalid address";
    require (role (institution g _institutionAddress) ≠ NONE)
      orelse "ScholaChain: Not registered";
    require (isActive (institution g _institutionAddress) ≠ _isActive)
      orelse "ScholaChain: Status unchanged";
    let g := set_institution _institutionAddress
               (with_isActive _isActive (institution g _institutionAddress)) g in
    let! g :=
      (if decide (role (institution g _institutionAddress) = ISSUER) then
         if _isActive then
           let g := set_authorized _institutionAddress true g in
           let! n := checked_incr (activeIssuers g) in
           Ok (set_activeIssuers n g)
         else
           let g := set_authorized _institutionAddress false g in
           let! n := checked_decr (activeIssuers g) in
           Ok (set_activeIssuers n g)
       else Ok g) in
    Ok (g, true,
        [InstitutionStatusChanged _institutionAddress _isActive (sender e)])).

Definition transferSuperAdmin (e : Env) (_newSuperAdmin : address)
    (g : State) : result (Outcome bool) :=
  onlySuperAdmin e g (
    require (_newSuperAdmin ≠ address0) orelse "ScholaChain: Invalid address";
    require (role (institution g _newSuperAdmin) ≠ NONE)
      orelse "ScholaChain: Not registered";
    require (_newSuperAdmin ≠ superAdmin g) orelse "ScholaChain: Same admin";
    let g := set_institution (superAdmin g)
               (with_role ISSUER (institution g (superAdmin g))) g in
    let g := set_institution _newSuperAdmin
               (with_role SUPER_ADMIN (institution g _newSuperAdmin)) g in
    let g := set_authorized (superAdmin g) true g in
    let g := set_authorized _newSuperAdmin false g in
    let previousAdmin := superAdmin g in
    let g := set_superAdmin _newSuperAdmin g in
    Ok (g, true,
        [InstitutionUpdated previousAdmin
           (name (institution g previousAdmin)) SUPER_ADMIN ISSUER;
         InstitutionUpdated _newSuperAdmin
           (name (institution g _newSuperAdmin)) ISSUER SUPER_ADMIN;
         SuperAdminTransferred previousAdmin _newSuperAdmin])).

(** *** View functions *)

Definition canIssueCertificates (g : State) (_issuer : address) : bool :=
  authorized g _issuer && isActive (institution g _issuer).

Definition getInstitution (g : State) (_institutionAddress : address)
    : Institution :=
  institution g _institutionAddress.

Definition getInstitutionRole (g : State) (_institutionAddress : address)
    : Role :=
  role (institution g _institutionAddress).

Definition isInstitutionActive (g : State) (_institutionAddress : address)
    : bool :=
  isActive (institution g _institutionAddress).

Definition isSuperAdmin (g : State) (_address : address) : bool :=
  bool_decide (role (institution g _address) = SUPER_ADMIN)
  && bool_decide (_address = superAdmin g).

Definition getActiveIssuersCount (g : State) : N := activeIssuers g.

Definition isInstitutionRevoked (g : State) (_institutionAddress : address)
    : bool :=
  bool_decide (role (institution g _institutionAddress) ≠ NONE)
  && negb (isActive (institution g _institutionAddress)).

(** *** Transactions *)

Inductive Call : Type :=
  | RegisterInstitution (_institutionAddress : address)
      (_name _description _website : string) (_role : Role)
  | RevokeInstitution (_institutionAddress : address) (_reason : string)
  | ReactivateInstitution (_institutionAddress : address)
  | UpdateInstitutionRole (_institutionAddress : address) (_newRole : Role)
  | SetInstitutionStatus (_institutionAddress : address) (_isActive : bool)
  | TransferSuperAdmin (_newSuperAdmin : address).

Definition call (e : Env) (c : Call) (g : State) : result (Outcome bool) :=
  match c with
  | RegisterInstitution a n d w r => registerInstitution e a n d w r g
  | RevokeInstitution a reason => revokeInstitution e a reason g
  | ReactivateInstitution a => reactivateInstitution e a g
  | UpdateInstitutionRole a r => updateInstitutionRole e a r g
  | SetInstitutionStatus a b => setInstitutionStatus e a b g
  | TransferSuperAdmin a => transferSuperAdmin e a g
  end.

(** The storage after a transaction: a failed one is reverted. *)
Definition after (e : Env) (c : Call) (g : State) : State :=
  match call e c g with
  | Ok (g', _, _) => g'
  | Fail _ => g
  end.

(** The states the registry can be in: the constructor state and every
    state a successful call leads to. The guard [allowed] restricts the
    calls, and [reachable] is the case of no restriction. *)
Inductive reachable_by (allowed : State → Call → bool) : State → Prop :=
  | reachable_constructor self now ministry g evs :
      constructor self now ministry = Ok (g, evs) →
      reachable_by allowed g
  | reachable_call g e c g' r evs :
      reachable_by allowed g →
      allowed g c = true →
      call e c g = Ok (g', r, evs) →
      reachable_by allowed g'.

Definition reachable : State → Prop := reachable_by (λ _ _, true).

(** The number of registered institutions that are active issuers. *)
Definition active_issuer (i : Institution) : Prop :=
  role i = ISSUER ∧ isActive i = true.

Global Instance active_issuer_dec i : Decision (active_issuer i).
Proof. unfold active_issuer. apply _. Defined.

Definition count_active_issuers (g : State) : N :=
  N.of_nat (size (filter (λ p, active_issuer p.2) (institutions g))).

End Governance.

(** ** contract ScholaChain *)

Record Certificate : Type := mkCertificate {
  documentHash : string;     (* SHA-256 hash of the certificate document *)
  ipfsCID : string;          (* IPFS Content Identifier *)
  issuer : address;          (* Institution that issued the certificate *)
  holder : address;          (* Recipient of the certificate *)
  issuedAt : N;              (* Timestamp of issuance *)
  revoked : bool;            (* Revocation status *)
  certificateType : string   (* Type of certificate *)
}.

Definition with_revoked (b : bool) (c : Certificate) : Certificate :=
  {| documentHash := documentHash c; ipfsCID := ipfsCID c;
     issuer := issuer c; holder := holder c; issuedAt := issuedAt c;
     revoked := b; certificateType := certificateType c |}.

Module ScholaChain.

Record State : Type := mkState {
  certificates : list Certificate;
  governanceContract : address;
  totalCertificates : N;
  activeCertificates : N
}.

Definition set_certificates (l : list Certificate) (s : State) : State :=
  {| certificates := l;
     governanceContract := governanceContract s;
     totalCertificates := totalCertificates s;
     activeCertificates := activeCertificates s |}.

Definition set_totalCertificates (n : N) (s : State) : State :=
  {| certificates := certificates s;
     governanceContract := governanceContract s;
     totalCertificates := n;
     activeCertificates := activeCertificates s |}.

Definition set_activeCertificates (n : N) (s : State) : State :=
  {| certificates := certificates s;
     governanceContract := governanceContract s;
     totalCertificates := totalCertificates s;
     activeCertificates := n |}.

(** [certificates.length] *)
Definition certificates_length (s : State) : N :=
  N.of_nat (length (certificates s)).

(** [certificates[i]], which panics out of bounds. *)
Definition certificate_at (s : State) (i : N) : result Certificate :=
  match certificates s !! N.to_nat i with
  | Some c => Ok c
  | None => Fail (Panic OUT_OF_BOUNDS)
  end.

Definition Outcome (A : Type) : Type := State * A * list Event.

(** [constructor(address _governanceAddress)] *)
Definition constructor (_governanceAddress : address) : result State :=
  require (_governanceAddress ≠ address0)
    orelse "ScholaChain: Invalid governance address";
  Ok {| certificates := [];
        governanceContract := _governanceAddress;
        totalCertificates := 0;
        activeCertificates := 0 |}.

(** The functions below take the storage [g] of the governance contract
    deployed at [governanceContract]: the two external view functions of
    the interface [ScholaChainGovernance] are calls into it, and neither
    can revert. *)
Definition governance_canIssueCertificates (g : Governance.State)
    (_issuer : address) : result bool :=
  Ok (Governance.canIssueCertificates g _issuer).

Definition governance_isSuperAdmin (g : Governance.State)
    (_address : address) : result bool :=
  Ok (Governance.isSuperAdmin g _address).

(** [try governance.canIssueCertificates(_issuer) ... catch { false }] *)
Definition _isAuthorizedIssuer (g : Governance.State) (_issuer : address)
    : bool :=
  match governance_canIssueCertificates g _issuer with
  | Ok authorized => authorized
  | Fail _ => false
  end.

(** [try governance.isSuperAdmin(_address) ... catch { false }] *)
Definition _isSuperAdmin (g : Governance.State) (_address : address) : bool :=
  match governance_isSuperAdmin g _address with
  | Ok isAdmin => isAdmin
  | Fail _ => false
  end.

(** [modifier onlyAuthorizedIssuer] *)
Definition onlyAuthorizedIssuer {A : Type} (e : Env) (g : Governance.State)
    (body : result A) : result A :=
  require (_isAuthorizedIssuer g (sender e) = true)
    orelse "ScholaChain: Not authorized issuer";
  body.

(** [modifier certificateExists(uint256 _certificateId)] *)
Definition certificateExists {A : Type} (s : State) (_certificateId : N)
    (body : result A) : result A :=
  require (_certificateId < certificates_length s)
    orelse "ScholaChain: Certificate does not exist";
  body.

Definition issueCertificate (e : Env) (_documentHash _ipfsCID : string)
    (_holder : address) (_certificateType : string)
    (g : Governance.State) (s : State) : result (Outcome N) :=
  onlyAuthorizedIssuer e g (
    require (String.length _documentHash = 66%nat)
      orelse "ScholaChain: Invalid document hash";
    require (0 < String.length _ipfsCID)%nat
      orelse "ScholaChain: IPFS CID required";
    require (_holder ≠ address0) orelse "ScholaChain: Invalid holder address";
    require (_holder ≠ sender e) orelse "ScholaChain: Cannot issue to self";
    let newCertificate :=
      {| documentHash := _documentHash;
         ipfsCID := _ipfsCID;
         issuer := sender e;
         holder := _holder;
         issuedAt := timestamp e;
         revoked := false;
         certificateType := _certificateType |} in
    let s := set_certificates (certificates s ++ [newCertificate]) s in
    let! certificateId := checked_sub (certificates_length s) 1 in
    let! n := checked_incr (totalCertificates s) in
    let s := set_totalCertificates n s in
    let! n := checked_incr (activeCertificates s) in
    let s := set_activeCertificates n s in
    Ok (s, certificateId,
        [CertificateIssued certificateId (sender e) _holder _documentHash
           _ipfsCID (timestamp e)])).

Definition revokeCertificate (e : Env) (_certificateId : N)
    (g : Governance.State) (s : State) : result (Outcome unit) :=
  certificateExists s _certificateId (
    let! certificate := certificate_at s _certificateId in
    require (sender e = issuer certificate ∨ _isSuperAdmin g (sender e) = true)
      orelse "ScholaChain: Only issuer or super admin can revoke";
    require (revoked certificate = false)
      orelse "ScholaChain: Certificate already revoked";
    let s := set_certificates
               (<[N.to_nat _certificateId := with_revoked true certificate]>
                  (certificates s)) s in
    let! n := checked_decr (activeCertificates s) in
    let s := set_activeCertificates n s in
    Ok (s, (), [CertificateRevoked _certificateId (sender e) (timestamp e)])).

(** *** View functions *)

Section Keccak.

(** The built-in hash function, on byte strings. *)
Variable keccak256 : string → N.

(** Returns [(isValid, issuer, holder, isRevoked)]. *)
Definition verifyCertificate (_certificateId : N) (_documentHash : string)
    (s : State) : result (bool * address * address * bool) :=
  certificateExists s _certificateId (
    let! certificate := certificate_at s _certificateId in
    let isValid :=
      bool_decide (keccak256 (documentHash certificate)
                   = keccak256 _documentHash)
      && negb (revoked certificate) in
    Ok (isValid, issuer certificate, holder certificate,
        revoked certificate)).

End Keccak.

Definition getCertificate (_certificateId : N) (s : State)
    : result Certificate :=
  certificateExists s _certificateId (certificate_at s _certificateId).

Definition getTotalCertificates (s : State) : N := certificates_length s.

Definition isIssuerAuthorized (g : Governance.State) (_issuer : address)
    : bool :=
  _isAuthorizedIssuer g _issuer.

End ScholaChain.

(** ** The two contracts together *)

Module World.

(** The storage of the governance contract and of the certificate contract
    deployed with its address. *)
Record State : Type := mkState {
  governance : Governance.State;
  registry : ScholaChain.State
}.

Inductive Call : Type :=
  | OfGovernance (c : Governance.Call)
  | IssueCertificate (_documentHash _ipfsCID : string) (_holder : address)
      (_certificateType : string)
  | RevokeCertificate (_certificateId : N).

Inductive Returned : Type :=
  | RetBool (b : bool)
  | RetId (certificateId : N)
  | RetUnit.

Definition call (e : Env) (c : Call) (w : State)
    : result (State * Returned * list Event) :=
  match c with
  | OfGovernance c =>
      let! out := Governance.call e c (governance w) in
      let '(g, b, evs) := out in
      Ok ({| governance := g; registry := registry w |}, RetBool b, evs)
  | IssueCertificate h cid holder ty =>
      let! out :=
        ScholaChain.issueCertificate e h cid holder ty
          (governance w) (registry w) in
      let '(s, id, evs) := out in
      Ok ({| governance := governance w; registry := s |}, RetId id, evs)
  | RevokeCertificate id =>
      let! out :=
        ScholaChain.revokeCertificate e id (governance w) (registry w) in
      let '(s, _, evs) := out in
      Ok ({| governance := governance w; registry := s |}, RetUnit, evs)
  end.

(** The storage after a transaction: a failed one is reverted. *)
Definition after (e : Env) (c : Call) (w : State) : State :=
  match call e c w with
  | Ok (w', _, _) => w'
  | Fail _ => w
  end.

(** Deployment as in [scripts/deploy.ts]: the governance contract first, at
    address [governanceAddress], then the certificate contract with that
    address. *)
Definition deploy (governanceAddress now ministry : address) : result State :=
  let! out := Governance.constructor governanceAddress now ministry in
  let! s := ScholaChain.constructor governanceAddress in
  Ok {| governance := out.1; registry := s |}.

Inductive reachable : State → Prop :=
  | reachable_deploy governanceAddress now ministry w :
      deploy governanceAddress now ministry = Ok w →
      reachable w
  | reachable_call w e c w' r evs :
      reachable w →
      call e c w = Ok (w', r, evs) →
      reachable w'.

(** A sequence of transactions, each with its environment. *)
Fixpoint run (tx : list (Env * Call)) (w : State) : State :=
  match tx with
  | [] => w
  | (e, c) :: tx => run tx (after e c w)
  end.

End World.

(** The backend's format of a document hash,
    [/^0x[a-fA-F0-9]{64}$/] in [backend/src/schemas/certificateSchemas.ts]. *)
Definition is_hex_digit (a : Ascii.ascii) : bool :=
  let n := Ascii.N_of_ascii a in
  ((48 <=? n) && (n <=? 57))        (* 0-9 *)
  || ((65 <=? n) && (n <=? 70))     (* A-F *)
  || ((97 <=? n) && (n <=? 102)).   (* a-f *)

Definition documentHashRegex (s : string) : bool :=
  match s with
  | String "0"%char (String "x"%char digits) =>
      bool_decide (String.length digits = 64%nat)
      && forallb is_hex_digit (String.list_ascii_of_string digits)
  | _ => false
  end.

(** ** The properties of the specification, as predicates *)

Module Props.
Import Governance.

(** Exactly one address has role [SUPER_ADMIN], the super-admin pointer. *)
Definition single_super_admin (g : State) : Prop :=
  ∀ a, role (institution g a) = SUPER_ADMIN ↔ a = superAdmin g.

(** Calls that keep the role [SUPER_ADMIN] where it is: no registration
    with that role, and no [updateInstitutionRole] that changes a role. *)
Definition keeps_admin_role (g : State) (c : Call) : bool :=
  match c with
  | RegisterInstitution _ _ _ _ r => bool_decide (r ≠ SUPER_ADMIN)
  | UpdateInstitutionRole a r => bool_decide (r = role (institution g a))
  | _ => true
  end.

(** Every institution of role [SUPER_ADMIN] is active. *)
Definition admins_active (g : State) : Prop :=
  ∀ a, role (institution g a) = SUPER_ADMIN →
       isActive (institution g a) = true.

(** Calls that neither suspend an institution of role [SUPER_ADMIN] nor
    give that role to an inactive institution. *)
Definition keeps_admin_active (g : State) (c : Call) : bool :=
  match c with
  | SetInstitutionStatus a b =>
      b || bool_decide (role (institution g a) ≠ SUPER_ADMIN)
  | UpdateInstitutionRole a r =>
      bool_decide (r ≠ SUPER_ADMIN) || isActive (institution g a)
  | TransferSuperAdmin a => isActive (institution g a)
  | _ => true
  end.

(** 1 for an active issuer, 0 otherwise. *)
Definition counted (i : Institution) : N :=
  if decide (active_issuer i) then 1 else 0.

(** The cached counter agrees with the institutions. *)
Definition issuer_count_ok (g : State) : Prop :=
  activeIssuers g = count_active_issuers g.

End Props.

(** ** Scenarios *)

Module Scenario.
Import Governance.

(** The ministry [M], two institutions [A] and [B], a holder [student]. *)
Definition M : address := 1.
Definition A : address := 2.
Definition B : address := 3.
Definition student : address := 9.

Definition by_M : Env := {| sender := M; timestamp := 1000 |}.
Definition by_A : Env := {| sender := A; timestamp := 2000 |}.
Definition by_B : Env := {| sender := B; timestamp := 3000 |}.

Definition g_genesis : State := genesis 0 M.

(** [M] registers [A] with role [SUPER_ADMIN]. *)
Definition g_two_admins : State :=
  after by_M (RegisterInstitution A "Acme University" "" "" SUPER_ADMIN)
    g_genesis.

(** [M] registers [A] as an issuer. *)
Definition g_issuer : State :=
  after by_M (RegisterInstitution A "Acme University" "" "" ISSUER) g_genesis.

(** [M] suspends itself. *)
Definition g_admin_suspended : State :=
  after by_M (SetInstitutionStatus M false) g_genesis.

(** [M] registers [A], revokes it, and transfers the super-admin role to
    it: steps 2, 4 and 7 of the scenario of the specification. *)
Definition g_revoked : State :=
  after by_M (RevokeInstitution A "fraud investigation") g_issuer.

Definition g_transferred : State :=
  after by_M (TransferSuperAdmin A) g_revoked.

End Scenario.

Module RegistryProps.
Import ScholaChain.

Definition not_revoked (c : Certificate) : Prop := revoked c = false.

Global Instance not_revoked_dec c : Decision (not_revoked c).
Proof. unfold not_revoked. apply _. Defined.

(** The number of certificates that are not revoked. *)
Definition count_active_certificates (s : State) : N :=
  N.of_nat (length (filter not_revoked (certificates s))).

(** The cached counters agree with the array of certificates. *)
Definition counters_ok (s : State) : Prop :=
  totalCertificates s = certificates_length s
  ∧ activeCertificates s = count_active_certificates s.

(** The argument checks of [issueCertificate]. *)
Definition arguments_ok (e : Env) (_documentHash _ipfsCID : string)
    (_holder : address) : Prop :=
  String.length _documentHash = 66%nat
  ∧ (0 < String.length _ipfsCID)%nat
  ∧ _holder ≠ address0
  ∧ _holder ≠ sender e.

End RegistryProps.

Module WorldScenario.
Import Scenario.

(** The address of the governance contract. *)
Definition G : address := 100.

Definition hashAA : string :=
  "0xaaaaaaaaaaaaaaaaaaaaaaaaaaaaaaaaaaaaaaaaaaaaaaaaaaaaaaaaaaaaaaaa".

(** 66 bytes, none of them a hexadecimal digit. *)
Definition hashZZ : string :=
  "zzzzzzzzzzzzzzzzzzzzzzzzzzzzzzzzzzzzzzzzzzzzzzzzzzzzzzzzzzzzzzzzzz".

Definition w_genesis : World.State :=
  {| World.governance := g_genesis;
     World.registry :=
       {| ScholaChain.certificates := [];
          ScholaChain.governanceContract := G;
          ScholaChain.totalCertificates := 0;
          ScholaChain.activeCertificates := 0 |} |}.

(** Steps 2 to 6 of the scenario of the specification. *)
Definition w_registered : World.State :=
  World.after by_M
    (World.OfGovernance
       (Governance.RegisterInstitution A "Acme University" "" "" ISSUER))
    w_genesis.

Definition w_issued : World.State :=
  World.after by_A (World.IssueCertificate hashAA "QmCID" student "Bachelor")
    w_registered.

Definition w_deactivated : World.State :=
  World.after by_M
    (World.OfGovernance
       (Governance.RevokeInstitution A "fraud investigation"))
    w_issued.

Definition w_certificate_revoked : World.State :=
  World.after by_A (World.RevokeCertificate 0) w_deactivated.

(** The certificate [A] issues to [student]. *)
Definition cert0 : Certificate :=
  {| documentHash := hashAA; ipfsCID := "QmCID"; issuer := A; holder := student;
     issuedAt := 2000; revoked := false; certificateType := "Bachelor" |}.

(** [M] reactivates [A] after the certificate has been revoked. *)
Definition w_reactivated : World.State :=
  World.after by_M
    (World.OfGovernance (Governance.ReactivateInstitution A))
    w_certificate_revoked.

(** A stand-in for the hash function that has no collision at all. *)
Definition injective_hash (s : string) : N := Npos (encode s).

End WorldScenario.

(** ** Further predicates on the governance registry *)

Module GovernanceProps.
Import Governance.

(** An institution that has been registered: its role is not [NONE]. *)
Definition registered (i : Institution) : Prop := role i ≠ NONE.

Global Instance registered_dec i : Decision (registered i).
Proof. unfold registered. apply _. Defined.

(** The number of registered institutions. *)
Definition count_registered (g : State) : N :=
  N.of_nat (size (filter (λ p, registered p.2) (institutions g))).

(** The fields of an institution that only its registration writes. *)
Definition same_record (i j : Institution) : Prop :=
  name i = name j
  ∧ description i = description j
  ∧ website i = website j
  ∧ registeredAt i = registeredAt j.

(** A sequence of transactions, each with its environment; a failed one is
    reverted and the sequence goes on. *)
Fixpoint run (tx : list (Env * Call)) (g : State) : State :=
  match tx with
  | [] => g
  | (e, c) :: tx => run tx (after e c g)
  end.

(** The pointer is a registered, non-zero address and the zero address is
    not registered. *)
Definition pointer_ok (g : State) : Prop :=
  superAdmin g ≠ address0
  ∧ registered (institution g (superAdmin g))
  ∧ role (institution g address0) = NONE.

(** An address that is not registered reads as the zero value in both
    mappings. *)
Definition unregistered_blank (g : State) : Prop :=
  ∀ a, role (institution g a) = NONE →
       institution g a = zeroInstitution ∧ authorized g a = false.

(** [authorizedIssuers] marks issuers only, and every active issuer. *)
Definition authorized_coherent (g : State) : Prop :=
  ∀ a, (authorized g a = true → role (institution g a) = ISSUER)
       ∧ (role (institution g a) = ISSUER →
          isActive (institution g a) = true →
          authorized g a = true).

(** Calls other than [transferSuperAdmin]. *)
Definition not_transfer (g : State) (c : Call) : bool :=
  match c with
  | TransferSuperAdmin _ => false
  | _ => true
  end.

(** The address a call names. *)
Definition target (c : Call) : address :=
  match c with
  | RegisterInstitution a _ _ _ _ => a
  | RevokeInstitution a _ => a
  | ReactivateInstitution a => a
  | UpdateInstitutionRole a _ => a
  | SetInstitutionStatus a _ => a
  | TransferSuperAdmin a => a
  end.

End GovernanceProps.

(** ** Further predicates on the certificate registry *)

Module CertificateProps.

(** What [issueCertificate] checks of a certificate it stores. *)
Definition well_formed (c : Certificate) : Prop :=
  String.length (documentHash c) = 66%nat
  ∧ (0 < String.length (ipfsCID c))%nat
  ∧ holder c ≠ address0
  ∧ holder c ≠ issuer c
  ∧ issuer c ≠ address0.

(** Every stored certificate is well formed and comes from a registered
    institution. *)
Definition certificates_sound (w : World.State) : Prop :=
  ∀ id c, ScholaChain.certificates (World.registry w) !! id = Some c →
          well_formed c
          ∧ GovernanceProps.registered
              (Governance.institution (World.governance w) (issuer c)).

End CertificateProps.

(** ** backend/src/utils/addressUtils.ts

    A JavaScript string is modelled by the string of its bytes. The
    functions below reach [length] and [toLowerCase] only on strings that
    passed [/^0x[a-fA-F0-9]{40}$/], which are ASCII: there a byte is a
    character, and [toLowerCase] changes the letters A-Z only. *)

Module AddressUtils.

(** [c.toLowerCase()] on an ASCII character *)
Definition lower_ascii (c : Ascii.ascii) : Ascii.ascii :=
  let n := Ascii.N_of_ascii c in
  if (65 <=? n) && (n <=? 90) then Ascii.ascii_of_N (n + 32) else c.

(** [s.toLowerCase()] on an ASCII string *)
Fixpoint toLowerCase (s : string) : string :=
  match s with
  | EmptyString => EmptyString
  | String c s => String (lower_ascii c) (toLowerCase s)
  end.

(** [s.startsWith(p)] *)
Definition startsWith (s p : string) : bool := String.prefix p s.

(** [/^0x[a-fA-F0-9]{40}$/.test(address)] *)
Definition isValidEthereumAddress (address : string) : bool :=
  match address with
  | String "0"%char (String "x"%char digits) =>
      bool_decide (String.length digits = 40%nat)
      && forallb is_hex_digit (String.list_ascii_of_string digits)
  | _ => false
  end.

(** Returns [None] for [null]. *)
Definition normalizeAddress (address : string) : option string :=
  if negb (isValidEthereumAddress address) then None
  else
    let cleanAddress :=
      if startsWith address "0x" then address else "0x" +:+ address in
    if negb (bool_decide (String.length cleanAddress = 42%nat)) then None
    else Some (toLowerCase cleanAddress).

(** A thrown [Error(message)] *)
Inductive thrown : Type := Error (message : string).

Definition validateAndNormalizeAddress (address : string)
    : thrown + string :=
  match normalizeAddress address with
  | None => inl (Error ("Invalid Ethereum address: " +:+ address))
  | Some normalized => inr normalized
  end.

Definition areAddressesEqual (address1 address2 : string) : bool :=
  match normalizeAddress address1, normalizeAddress address2 with
  | Some normalized1, Some normalized2 =>
      bool_decide (toLowerCase normalized1 = toLowerCase normalized2)
  | _, _ => false
  end.

End AddressUtils.

(** ** backend/src/services/hashService.ts

    The functions that do not call the hash function itself. [startsWith],
    concatenation and [===] are the same on a string and on its bytes. *)

Module HashService.

Definition is_hex64 (s : string) : bool :=
  bool_decide (String.length s = 64%nat)
  && forallb is_hex_digit (String.list_ascii_of_string s).

(** [/^(0x)?[a-fA-F0-9]{64}$/.test(hash)] *)
Definition isValidSHA256Hash (hash : string) : bool :=
  match hash with
  | String "0"%char (String "x"%char digits) => is_hex64 digits
  | _ => is_hex64 hash
  end.

Definition normalizeHash (hash : string) : string :=
  if AddressUtils.startsWith hash "0x" then hash else "0x" +:+ hash.

Definition compareHashes (hash1 hash2 : string) : bool :=
  let normalized1 := normalizeHash hash1 in
  let normalized2 := normalizeHash hash2 in
  bool_decide (normalized1 = normalized2).

End HashService.

(** ** backend/src/schemas/certificateSchemas.ts: [certificateIdSchema] *)

Module CertificateIdSchema.

(** [\d] *)
Definition is_digit (a : Ascii.ascii) : bool :=
  let n := Ascii.N_of_ascii a in (48 <=? n) && (n <=? 57).

(** [/^\d+$/.test(id)] *)
Definition numeric_string (id : string) : bool :=
  negb (bool_decide (id = "")) 
  && forallb is_digit (String.list_ascii_of_string id).

(** The integer a string of digits writes. [Number(id)] is the double
    nearest to it, which may differ from it above 2^53 but is positive
    exactly when it is. *)
Definition decimal_value (id : string) : N :=
  fold_left (λ v a, 10 * v + (Ascii.N_of_ascii a - 48))
    (String.list_ascii_of_string id) 0.

(** Whether [certificateIdSchema] accepts [{ id }]: the regex, then
    [transform(Number)], then [refine((n) => n > 0)]. *)
Definition accepts (id : string) : bool :=
  numeric_string id && (0 <? decimal_value id).

End CertificateIdSchema.

(** Inputs for the utilities: an address in mixed case and a hash without
    its prefix. *)
Module UtilScenario.

Definition addrMixed : string :=
  "0xAbCdEf0123456789AbCdEf0123456789AbCdEf01".

Definition bareAA : string :=
  "aaaaaaaaaaaaaaaaaaaaaaaaaaaaaaaaaaaaaaaaaaaaaaaaaaaaaaaaaaaaaaaa".

End UtilScenario.

(** * Properties of the governance registry *)

Module GovernanceFacts.
Import Governance.

Lemma institution_set_institution a i g b :
  institution (set_institution a i g) b
  = if decide (a = b) then i else institution g b.
Proof.
  unfold institution, set_institution; cbn.
  rewrite lookup_insert. by case_decide.
Qed.

Lemma authorized_set_authorized a v g b :
  authorized (set_authorized a v g) b
  = if decide (a = b) then v else authorized g b.
Proof.
  unfold authorized, set_authorized; cbn.
  rewrite lookup_insert. by case_decide.
Qed.

Lemma institution_genesis now m a :
  institution (genesis now m) a
  = if decide (m = a)
    then {| name := "Ministry of Education";
            description := "Governing body for educational certification";
            website := "https://education.gov";
            isActive := true; registeredAt := now; role := SUPER_ADMIN |}
    else zeroInstitution.
Proof.
  unfold institution, genesis; cbn.
  rewrite lookup_singleton. by case_decide.
Qed.

Lemma authorized_genesis now m a : authorized (genesis now m) a = false.
Proof. reflexivity. Qed.

(** A successful call, and the storage it leaves. *)
Lemma after_ok e c g :
  is_ok (call e c g) = true → ∃ r evs, call e c g = Ok (after e c g, r, evs).
Proof.
  unfold after. destruct (call e c g) as [[[g' r] evs]|]; [eauto | done].
Qed.

Lemma reachable_by_after allowed e c g :
  reachable_by allowed g →
  allowed g c = true →
  is_ok (call e c g) = true →
  reachable_by allowed (after e c g).
Proof.
  intros Hg Hc Hok. destruct (after_ok _ _ _ Hok) as (r & evs & Heq).
  by eapply reachable_call.
Qed.

Lemma reachable_by_genesis allowed now m :
  m ≠ address0 → reachable_by allowed (genesis now m).
Proof.
  intros Hm. eapply (reachable_constructor allowed 0 now m).
  unfold constructor. by rewrite decide_True.
Qed.

(** Unfolds a call down to its guards and assignments. *)
Ltac open_call H :=
  unfold call, registerInstitution, revokeInstitution, reactivateInstitution,
    updateInstitutionRole, setInstitutionStatus, transferSuperAdmin,
    onlySuperAdmin in H.

Ltac open_arith H :=
  unfold checked_incr, checked_decr, checked_add, checked_sub, bind in H.

(** Splits on every guard and branch of the call in [H]. *)
Ltac split_call H :=
  open_call H; open_arith H;
  repeat first
    [ case_decide
    | match type of H with
      | context [if ?b then _ else _] => destruct b eqn:?
      end ];
  simplify_eq.

(** Reads the fields of a storage built from assignments. *)
Ltac read_storage :=
  unfold institution, authorized in *;
  cbn [institutions authorizedIssuers superAdmin totalInstitutions
       activeIssuers set_institution set_authorized set_superAdmin
       set_totalInstitutions set_activeIssuers] in *;
  rewrite ?lookup_insert in *;
  repeat case_decide; simplify_eq;
  cbn [from_option id role isActive with_role with_isActive] in *.

End GovernanceFacts.

Section GovernanceInvariants.
Import Governance Props GovernanceFacts Scenario.

Lemma single_super_admin_genesis now m : single_super_admin (genesis now m).
Proof.
  intros a. rewrite institution_genesis. cbn.
  case_decide; naive_solver.
Qed.

Lemma single_super_admin_call g e c g' r evs :
  single_super_admin g →
  keeps_admin_role g c = true →
  call e c g = Ok (g', r, evs) →
  single_super_admin g'.
Proof.
  intros Hinv Hc Hcall a. specialize (Hinv a) as Hinva.
  specialize (Hinv (superAdmin g)) as Hptr.
  destruct c; cbn in Hc; split_call Hcall; read_storage;
    intuition congruence.
Qed.

Lemma admins_active_genesis now m : admins_active (genesis now m).
Proof.
  intros a. rewrite !institution_genesis. by case_decide.
Qed.

Lemma admins_active_call g e c g' r evs :
  admins_active g →
  keeps_admin_active g c = true →
  call e c g = Ok (g', r, evs) →
  admins_active g'.
Proof.
  intros Hinv Hc Hcall a. specialize (Hinv a) as Hinva.
  destruct c; cbn in Hc;
    rewrite ?orb_true_iff, ?bool_decide_eq_true in Hc;
    split_call Hcall; read_storage;
    intuition congruence.
Qed.

(** ** The super admin *)

(** C1, as amended. In every state of the governance registry reached from
    the constructor state by successful calls that never register an
    institution with role SUPER_ADMIN and never change a role through
    updateInstitutionRole (so: registerInstitution with role ISSUER,
    revokeInstitution, reactivateInstitution, setInstitutionStatus and
    transferSuperAdmin), exactly one address has role SUPER_ADMIN and that
    address is the superAdmin pointer. *)
Theorem single_super_admin_reachable (g : State) :
  reachable_by keeps_admin_role g →
  single_super_admin g.
Proof.
  induction 1 as [self now m g evs Hc | g e c g' r evs _ IH Hok Hcall].
  - unfold constructor in Hc. case_decide; simplify_eq.
    apply single_super_admin_genesis.
  - by eapply single_super_admin_call.
Qed.

(** C3, as amended. In every state of the governance registry reached from
    the constructor state by successful calls other than a
    setInstitutionStatus that suspends an institution of role SUPER_ADMIN
    and an updateInstitutionRole or transferSuperAdmin that gives the role
    SUPER_ADMIN to an inactive institution, every institution whose role is
    SUPER_ADMIN is active; registerInstitution, revokeInstitution and
    reactivateInstitution are never among the excluded calls. *)
Theorem admins_active_reachable (g : State) :
  reachable_by keeps_admin_active g →
  admins_active g.
Proof.
  induction 1 as [self now m g evs Hc | g e c g' r evs _ IH Hok Hcall].
  - unfold constructor in Hc. case_decide; simplify_eq.
    apply admins_active_genesis.
  - by eapply admins_active_call.
Qed.

(** C10. A caller that is not the superAdmin pointer cannot use any of the
    six admin operations: the call reverts with "Only super admin", an
    Unauthorized failure, the storage is unchanged, and isSuperAdmin of the
    caller is false. This holds in every state and whatever the caller's
    own role is, SUPER_ADMIN included. *)
Theorem only_pointer_has_admin_power (g : State) (e : Env) (c : Call) :
  sender e ≠ superAdmin g →
  call e c g = Fail (Revert "ScholaChain: Only super admin")
  ∧ error_kind (Revert "ScholaChain: Only super admin") = Some Unauthorized
  ∧ after e c g = g
  ∧ isSuperAdmin g (sender e) = false.
Proof.
  intros Hne.
  assert (Hfail : call e c g = Fail (Revert "ScholaChain: Only super admin")).
  { destruct c; cbn; unfold registerInstitution, revokeInstitution,
      reactivateInstitution, updateInstitutionRole, setInstitutionStatus,
      transferSuperAdmin, onlySuperAdmin; by rewrite decide_False. }
  split_and!.
  - done.
  - reflexivity.
  - unfold after. by rewrite Hfail.
  - unfold isSuperAdmin. rewrite (bool_decide_eq_false_2 (_ = superAdmin g)) by done.
    apply andb_false_r.
Qed.

End GovernanceInvariants.

Section IssuerCounter.
Import Governance Props GovernanceFacts.

Lemma count_set_institution a i g :
  count_active_issuers (set_institution a i g) + counted (institution g a)
  = count_active_issuers g + counted i.
Proof.
  unfold count_active_issuers, institution, counted; cbn.
  set (P := λ p : address * Institution, active_issuer p.2).
  rewrite (map_filter_insert P).
  destruct (institutions g !! a) as [old |] eqn:Hold; cbn.
  - destruct (decide (active_issuer old)) as [Ho | Ho].
    + assert (filter P (institutions g) !! a = Some old) as Hf
        by by apply map_lookup_filter_Some.
      pose proof (map_size_ne_0_lookup_2 _ _ (mk_is_Some _ _ Hf)).
      case_decide.
      * rewrite (decide_True (P := active_issuer i)) by done.
        rewrite map_size_insert, Hf. cbn. lia.
      * rewrite (decide_False (P := active_issuer i)) by done.
        rewrite map_filter_delete, map_size_delete, Hf. cbn. lia.
    + assert (filter P (institutions g) !! a = None) as Hf.
      { apply map_lookup_filter_None. right. intros x ?. by simplify_eq. }
      case_decide.
      * rewrite (decide_True (P := active_issuer i)) by done.
        rewrite map_size_insert, Hf. cbn. lia.
      * rewrite (decide_False (P := active_issuer i)) by done.
        rewrite map_filter_delete, map_size_delete, Hf. cbn. lia.
  - assert (filter P (institutions g) !! a = None) as Hf
      by (apply map_lookup_filter_None; by left).
    rewrite (decide_False (P := active_issuer zeroInstitution))
      by (by intros [? _]).
    case_decide.
    + rewrite (decide_True (P := active_issuer i)) by done.
      rewrite map_size_insert, Hf. cbn. lia.
    + rewrite (decide_False (P := active_issuer i)) by done.
      rewrite map_filter_delete, map_size_delete, Hf. cbn. lia.
Qed.

Lemma count_set_authorized a b g :
  count_active_issuers (set_authorized a b g) = count_active_issuers g.
Proof. reflexivity. Qed.

Lemma count_set_totalInstitutions n g :
  count_active_issuers (set_totalInstitutions n g) = count_active_issuers g.
Proof. reflexivity. Qed.

Lemma count_set_activeIssuers n g :
  count_active_issuers (set_activeIssuers n g) = count_active_issuers g.
Proof. reflexivity. Qed.

Lemma count_set_superAdmin a g :
  count_active_issuers (set_superAdmin a g) = count_active_issuers g.
Proof. reflexivity. Qed.

(** Every operation but [transferSuperAdmin] keeps the counter of active
    issuers equal to their number. *)
Lemma issuer_count_ok_call g e c g' r evs :
  issuer_count_ok g →
  (∀ a, c ≠ TransferSuperAdmin a) →
  call e c g = Ok (g', r, evs) →
  issuer_count_ok g'.
Proof.
  unfold issuer_count_ok. intros Hinv Hc Hcall.
  destruct c as [a n d ws ro | a reason | a | a ro | a b | a];
    [| | | | | by destruct (Hc a)];
    split_call Hcall;
    repeat first
      [ rewrite count_set_authorized
      | rewrite count_set_totalInstitutions
      | rewrite count_set_activeIssuers ];
    match goal with
    | |- context [count_active_issuers (set_institution ?a ?i ?g)] =>
        pose proof (count_set_institution a i g) as Hcount
    end;
    revert Hcount; unfold counted, active_issuer;
    read_storage; repeat case_decide; cbn in *; intros;
    first
      [ lia
      | exfalso; intuition congruence
      | exfalso; destruct (isActive _); intuition congruence ].
Qed.

(** [transferSuperAdmin] leaves the counter alone while the previous admin
    enters the active issuers, if it is active, and the new admin leaves
    them, if it was one of them. *)
Lemma transferSuperAdmin_count g e a g' r evs :
  call e (TransferSuperAdmin a) g = Ok (g', r, evs) →
  activeIssuers g' = activeIssuers g
  ∧ count_active_issuers g' + counted (institution g a)
      + counted (institution g (superAdmin g))
    = count_active_issuers g
      + (if isActive (institution g (superAdmin g)) then 1 else 0).
Proof.
  intros Hcall. split_call Hcall. split; [done |].
  repeat first
    [ rewrite count_set_authorized
    | rewrite count_set_superAdmin ].
  set (g1 := set_institution (superAdmin g)
               (with_role ISSUER (institution g (superAdmin g))) g).
  pose proof (count_set_institution (superAdmin g)
                (with_role ISSUER (institution g (superAdmin g))) g) as Hc1.
  pose proof (count_set_institution a
                (with_role SUPER_ADMIN (institution g1 a)) g1) as Hc2.
  assert (institution g1 a = institution g a) as Ha.
  { unfold g1. rewrite institution_set_institution.
    by rewrite decide_False by done. }
  fold g1 in Hc1. rewrite Ha in Hc2.
  change (superAdmin g1) with (superAdmin g).
  rewrite Ha.
  assert (counted (with_role SUPER_ADMIN (institution g a)) = 0) as Hnew.
  { unfold counted. by rewrite decide_False by (by intros [? _]). }
  assert (counted (with_role ISSUER (institution g (superAdmin g)))
          = if isActive (institution g (superAdmin g)) then 1 else 0) as Hold.
  { unfold counted.
    destruct (isActive (institution g (superAdmin g))) eqn:Hact.
    - rewrite decide_True; [done |]. by split.
    - rewrite decide_False; [done |]. intros [_ Hact']. cbn in Hact'.
      congruence. }
  lia.
Qed.

End IssuerCounter.

(** * Properties of the certificate registry *)

Module RegistryFacts.
Import ScholaChain RegistryProps.

Lemma world_after_ok e c w :
  is_ok (World.call e c w) = true →
  ∃ r evs, World.call e c w = Ok (World.after e c w, r, evs).
Proof.
  unfold World.after.
  destruct (World.call e c w) as [[[w' r] evs]|]; [eauto | done].
Qed.

Lemma reachable_after e c w :
  World.reachable w → World.reachable (World.after e c w).
Proof.
  intros Hw. unfold World.after.
  destruct (World.call e c w) as [[[w' r] evs]|] eqn:Hcall; [| done].
  by eapply World.reachable_call.
Qed.

Lemma reachable_run tx w :
  World.reachable w → World.reachable (World.run tx w).
Proof.
  revert w. induction tx as [| [e c] tx IH]; intros w Hw; cbn; [done |].
  by apply IH, reachable_after.
Qed.

(** Unfolds a call of the certificate contract down to its guards. *)
Ltac open_registry_call H :=
  unfold World.call, issueCertificate, revokeCertificate,
    onlyAuthorizedIssuer, certificateExists, certificate_at in H.

Ltac split_registry_call H :=
  open_registry_call H;
  unfold checked_incr, checked_decr, checked_add, checked_sub, bind in H;
  repeat first
    [ case_decide
    | match type of H with
      | context [match ?o with Some _ => _ | None => _ end] =>
          destruct o eqn:?
      end ];
  simplify_eq.

Lemma certificates_length_app l c s :
  certificates_length (set_certificates (l ++ [c]) s)
  = N.of_nat (length l) + 1.
Proof.
  unfold certificates_length; cbn. rewrite length_app; cbn. lia.
Qed.

Lemma count_active_snoc (l : list Certificate) c :
  not_revoked c →
  length (filter not_revoked ((l ++ [c])%list)) = S (length (filter not_revoked l)).
Proof.
  intros Hc. rewrite filter_app, length_app, filter_cons_True by done.
  cbn. lia.
Qed.

Lemma count_active_revoke (l : list Certificate) i c :
  l !! i = Some c →
  not_revoked c →
  S (length (filter not_revoked (<[i := with_revoked true c]> l)))
  = length (filter not_revoked l).
Proof.
  revert i. induction l as [| x l IH]; intros [| i] Hl Hc; simplify_eq/=.
  - rewrite filter_cons_False by (unfold not_revoked; cbn; congruence).
    by rewrite filter_cons_True.
  - rewrite !filter_cons. case_decide; cbn; by rewrite (IH i).
Qed.

Lemma counters_ok_call e c w w' r evs :
  counters_ok (World.registry w) →
  World.call e c w = Ok (w', r, evs) →
  counters_ok (World.registry w').
Proof.
  intros [Htot Hact] Hcall.
  destruct c as [c | h cid holder ty | id]; cbn in Hcall.
  - destruct (Governance.call e c (World.governance w)) as [[[g b] evs']|];
      by simplify_eq/=.
  - split_registry_call Hcall. cbn.
    unfold counters_ok, count_active_certificates, certificates_length in *.
    cbn. rewrite count_active_snoc by done. rewrite length_app. cbn. lia.
  - split_registry_call Hcall; cbn;
      unfold counters_ok, count_active_certificates, certificates_length in *;
      cbn; rewrite length_insert; (split; [done |]);
      rewrite Hact; erewrite <- (count_active_revoke (certificates _)) by done;
      lia.
Qed.

Lemma counters_ok_reachable w :
  World.reachable w → counters_ok (World.registry w).
Proof.
  induction 1 as [ga now m w Hd | w e c w' r evs _ IH Hcall].
  - unfold World.deploy, Governance.constructor, constructor, bind in Hd.
    repeat case_decide; by simplify_eq.
  - by eapply counters_ok_call.
Qed.

End RegistryFacts.

Section RegistryContract.
Import ScholaChain RegistryProps RegistryFacts.

Lemma lookup_exists (s : State) id c :
  certificates s !! N.to_nat id = Some c → id < certificates_length s.
Proof.
  intros Hl. apply lookup_lt_Some in Hl. unfold certificates_length. lia.
Qed.

Lemma lookup_missing (s : State) id :
  certificates s !! N.to_nat id = None → ¬ id < certificates_length s.
Proof.
  intros Hl. apply lookup_ge_None in Hl. unfold certificates_length. lia.
Qed.

(** [revokeCertificate], guard by guard. *)
Lemma revokeCertificate_cases e id g s :
  revokeCertificate e id g s =
  match certificates s !! N.to_nat id with
  | None => Fail (Revert "ScholaChain: Certificate does not exist")
  | Some c =>
      if decide (sender e = issuer c
                 ∨ Governance.isSuperAdmin g (sender e) = true) then
        if decide (revoked c = false) then
          if decide (1 ≤ activeCertificates s) then
            Ok (set_activeCertificates (activeCertificates s - 1)
                  (set_certificates
                     (<[N.to_nat id := with_revoked true c]> (certificates s))
                     s),
                (), [CertificateRevoked id (sender e) (timestamp e)])
          else Fail (Panic ARITHMETIC)
        else Fail (Revert "ScholaChain: Certificate already revoked")
      else Fail (Revert "ScholaChain: Only issuer or super admin can revoke")
  end.
Proof.
  unfold revokeCertificate, certificateExists, certificate_at,
    _isSuperAdmin, governance_isSuperAdmin, checked_decr, checked_sub, bind.
  destruct (certificates s !! N.to_nat id) as [c |] eqn:Hl.
  - rewrite decide_True by by eapply lookup_exists.
    repeat case_decide; done.
  - by rewrite decide_False by by apply lookup_missing.
Qed.

Lemma active_certificate_counted (s : State) i c :
  counters_ok s →
  certificates s !! i = Some c →
  revoked c = false →
  1 ≤ activeCertificates s.
Proof.
  intros [_ Hact] Hl Hc. rewrite Hact. unfold count_active_certificates.
  rewrite <- (count_active_revoke _ i c) by done. lia.
Qed.

Lemma world_revoke e id w :
  World.call e (World.RevokeCertificate id) w =
  match revokeCertificate e id (World.governance w) (World.registry w) with
  | Ok (s, _, evs) =>
      Ok ({| World.governance := World.governance w; World.registry := s |},
          World.RetUnit, evs)
  | Fail f => Fail f
  end.
Proof.
  cbn. unfold bind.
  by destruct (revokeCertificate _ _ _ _) as [[[s []] evs] |].
Qed.

(** ** Revocation of a certificate *)

(** C4. In every reachable state, revokeCertificate by [sender e] on [id]
    succeeds exactly when the certificate exists, the caller is its stored
    issuer or isSuperAdmin holds of the caller, and it is not yet revoked;
    whether the caller can still issue plays no role. On success the
    certificate is marked revoked and activeCertificates decreases by one,
    nothing else changes. A missing certificate fails NotFound, a caller
    without the right fails Unauthorized, a revoked certificate fails
    AlreadyRevoked, and a failed call leaves the state as it was. *)
Theorem revokeCertificate_contract (w : World.State) (e : Env) (id : N) :
  World.reachable w →
  (is_ok (World.call e (World.RevokeCertificate id) w) = true ↔
     ∃ c, certificates (World.registry w) !! N.to_nat id = Some c
          ∧ (sender e = issuer c
             ∨ Governance.isSuperAdmin (World.governance w) (sender e) = true)
          ∧ revoked c = false)
  ∧ (∀ c, certificates (World.registry w) !! N.to_nat id = Some c →
          sender e = issuer c →
          revoked c = false →
          Governance.canIssueCertificates (World.governance w) (sender e)
            = false →
          is_ok (World.call e (World.RevokeCertificate id) w) = true)
  ∧ (∀ c, certificates (World.registry w) !! N.to_nat id = Some c →
          is_ok (World.call e (World.RevokeCertificate id) w) = true →
          1 ≤ activeCertificates (World.registry w)
          ∧ World.after e (World.RevokeCertificate id) w =
            {| World.governance := World.governance w;
               World.registry :=
                 set_activeCertificates
                   (activeCertificates (World.registry w) - 1)
                   (set_certificates
                      (<[N.to_nat id := with_revoked true c]>
                         (certificates (World.registry w)))
                      (World.registry w)) |})
  ∧ (certificates (World.registry w) !! N.to_nat id = None →
       ∃ f, World.call e (World.RevokeCertificate id) w = Fail f
            ∧ error_kind f = Some NotFound)
  ∧ (∀ c, certificates (World.registry w) !! N.to_nat id = Some c →
          ¬ (sender e = issuer c
             ∨ Governance.isSuperAdmin (World.governance w) (sender e) = true) →
          ∃ f, World.call e (World.RevokeCertificate id) w = Fail f
               ∧ error_kind f = Some Unauthorized)
  ∧ (∀ c, certificates (World.registry w) !! N.to_nat id = Some c →
          (sender e = issuer c
           ∨ Governance.isSuperAdmin (World.governance w) (sender e) = true) →
          revoked c = true →
          ∃ f, World.call e (World.RevokeCertificate id) w = Fail f
               ∧ error_kind f = Some AlreadyRevoked)
  ∧ (is_ok (World.call e (World.RevokeCertificate id) w) = false →
       World.after e (World.RevokeCertificate id) w = w).
Proof.
  intros Hw. apply counters_ok_reachable in Hw.
  unfold World.after. rewrite world_revoke, revokeCertificate_cases.
  split_and!.
  - destruct (certificates _ !! _) as [c |] eqn:Hl.
    + destruct (decide (sender e = issuer c ∨ _)) as [Ha | Ha];
        [destruct (decide (revoked c = false)) as [Hr | Hr] |].
      * rewrite decide_True by by eapply active_certificate_counted.
        split; [intros _; by exists c | done].
      * split; [done | intros (c' & [= <-] & _ & Hr'); by destruct Hr].
      * split; [done | intros (c' & [= <-] & Ha' & _); by destruct Ha].
    + split; [done | by intros (c' & [=] & _)].
  - intros c Hl Hiss Hrev _. rewrite Hl.
    pose proof (active_certificate_counted _ _ _ Hw Hl Hrev).
    rewrite !decide_True by auto. done.
  - intros c Hl. rewrite Hl. repeat case_decide; cbn; done.
  - intros ->. eexists; split; [done |]. reflexivity.
  - intros c Hl Hno. rewrite Hl, decide_False by done.
    eexists; split; [done |]. reflexivity.
  - intros c Hl Hyes Hrev. rewrite Hl, decide_True by done.
    rewrite decide_False by congruence.
    eexists; split; [done |]. reflexivity.
  - destruct (certificates _ !! _) as [c |]; [| done].
    repeat case_decide; cbn; done.
Qed.

End RegistryContract.

Section RegistryIssue.
Import ScholaChain RegistryProps RegistryFacts.

(** [issueCertificate], guard by guard. *)
Lemma issueCertificate_cases e h cid holder ty g s :
  issueCertificate e h cid holder ty g s =
  if decide (Governance.canIssueCertificates g (sender e) = true) then
    if decide (String.length h = 66%nat) then
      if decide (0 < String.length cid)%nat then
        if decide (holder ≠ address0) then
          if decide (holder ≠ sender e) then
            if decide (totalCertificates s + 1 ≤ UINT256_MAX) then
              if decide (activeCertificates s + 1 ≤ UINT256_MAX) then
                Ok (set_activeCertificates (activeCertificates s + 1)
                      (set_totalCertificates (totalCertificates s + 1)
                         (set_certificates
                            (certificates s ++
                               [{| documentHash := h; ipfsCID := cid;
                                   issuer := sender e; holder := holder;
                                   issuedAt := timestamp e; revoked := false;
                                   certificateType := ty |}]) s)),
                    certificates_length s,
                    [CertificateIssued (certificates_length s) (sender e)
                       holder h cid (timestamp e)])
              else Fail (Panic ARITHMETIC)
            else Fail (Panic ARITHMETIC)
          else Fail (Revert "ScholaChain: Cannot issue to self")
        else Fail (Revert "ScholaChain: Invalid holder address")
      else Fail (Revert "ScholaChain: IPFS CID required")
    else Fail (Revert "ScholaChain: Invalid document hash")
  else Fail (Revert "ScholaChain: Not authorized issuer").
Proof.
  unfold issueCertificate, onlyAuthorizedIssuer, _isAuthorizedIssuer,
    governance_canIssueCertificates, checked_incr, checked_add, checked_sub,
    bind.
  repeat case_decide; try done.
  - rewrite certificates_length_app in *.
    replace (N.of_nat (length (certificates s)) + 1 - 1)
      with (certificates_length s) by (unfold certificates_length; lia).
    done.
  - rewrite certificates_length_app in *. lia.
Qed.

Lemma world_issue e h cid holder ty w :
  World.call e (World.IssueCertificate h cid holder ty) w =
  match issueCertificate e h cid holder ty
          (World.governance w) (World.registry w) with
  | Ok (s, id, evs) =>
      Ok ({| World.governance := World.governance w; World.registry := s |},
          World.RetId id, evs)
  | Fail f => Fail f
  end.
Proof.
  cbn. unfold bind.
  by destruct (issueCertificate _ _ _ _ _ _ _) as [[[s id] evs] |].
Qed.

Lemma documentHashRegex_length h :
  documentHashRegex h = true → String.length h = 66%nat.
Proof.
  destruct h as [| a [| b digits]]; try done.
  - by destruct a as [[] [] [] [] [] [] [] []].
  - destruct a as [[] [] [] [] [] [] [] []]; try done.
    destruct b as [[] [] [] [] [] [] [] []]; try done.
    cbn. rewrite andb_true_iff, bool_decide_eq_true. by intros [-> _].
Qed.

Lemma with_revoked_same c : with_revoked (revoked c) c = c.
Proof. by destruct c. Qed.

(** ** Issuance *)

(** C6. In every reachable state with room left in the uint256 counter of
    certificates, and for arguments that pass the argument checks (a
    document hash of the 0x-prefixed 64-digit form, a non-empty content
    reference, a non-zero holder other than the caller),
    canIssueCertificates of the caller is true exactly when issueCertificate
    from that caller succeeds: the authorization read from the governance
    registry at call time is the only condition on the caller. *)
Theorem canIssue_iff_issue_succeeds (w : World.State) (e : Env)
    (h cid : string) (holder : address) (ty : string) :
  World.reachable w →
  totalCertificates (World.registry w) < UINT256_MAX →
  documentHashRegex h = true →
  (0 < String.length cid)%nat →
  holder ≠ address0 →
  holder ≠ sender e →
  Governance.canIssueCertificates (World.governance w) (sender e) = true
  ↔ is_ok (World.call e (World.IssueCertificate h cid holder ty) w) = true.
Proof.
  intros Hw Hroom Hh Hcid Hz Hself.
  apply counters_ok_reachable in Hw as [Htot Hact].
  apply documentHashRegex_length in Hh.
  assert (activeCertificates (World.registry w)
          ≤ totalCertificates (World.registry w)) as Hle.
  { rewrite Htot, Hact.
    unfold count_active_certificates, certificates_length.
    pose proof (length_filter not_revoked (certificates (World.registry w))).
    lia. }
  rewrite world_issue, issueCertificate_cases.
  destruct (decide (Governance.canIssueCertificates _ _ = true)) as [Hc | Hc].
  - rewrite !decide_True by (done || lia). done.
  - done.
Qed.

(** C7, as amended. issueCertificate succeeds only when the caller can
    issue, the document hash is exactly 66 bytes long, the content reference
    is not empty and the holder is neither the zero address nor the caller.
    A call from a caller that can issue and that violates one of these four
    argument checks fails with an InvalidArgument revert and leaves the state
    unchanged; a call from a caller that cannot issue fails Unauthorized,
    whatever its arguments. The contract does not look at the characters of
    the hash. *)
Theorem issueCertificate_argument_checks (w : World.State) (e : Env)
    (h cid : string) (holder : address) (ty : string) :
  (is_ok (World.call e (World.IssueCertificate h cid holder ty) w) = true →
     Governance.canIssueCertificates (World.governance w) (sender e) = true
     ∧ arguments_ok e h cid holder)
  ∧ (Governance.canIssueCertificates (World.governance w) (sender e) = true →
     ¬ arguments_ok e h cid holder →
     ∃ f, World.call e (World.IssueCertificate h cid holder ty) w = Fail f
          ∧ error_kind f = Some InvalidArgument
          ∧ World.after e (World.IssueCertificate h cid holder ty) w = w)
  ∧ (Governance.canIssueCertificates (World.governance w) (sender e) ≠ true →
     ∃ f, World.call e (World.IssueCertificate h cid holder ty) w = Fail f
          ∧ error_kind f = Some Unauthorized
          ∧ World.after e (World.IssueCertificate h cid holder ty) w = w).
Proof.
  unfold World.after, arguments_ok.
  rewrite world_issue, issueCertificate_cases.
  split_and!.
  - repeat case_decide; cbn; done.
  - intros Hc Hargs. rewrite decide_True by done.
    repeat case_decide; try (by eexists); by destruct Hargs.
  - intros Hc. rewrite decide_False by done. by eexists.
Qed.

(** C8. In every reachable state the certificates that exist are those of
    id 0 to totalCertificates - 1; a successful issueCertificate returns the
    value totalCertificates had before the call and increases it by one; and
    after any successful call each certificate is still at its id, with the
    same contents except possibly its revoked flag. *)
Theorem certificate_ids_sequential (w : World.State) :
  World.reachable w →
  (∀ id, is_ok (getCertificate id (World.registry w)) = true
         ↔ id < totalCertificates (World.registry w))
  ∧ (∀ e h cid holder ty w' r evs,
       World.call e (World.IssueCertificate h cid holder ty) w
         = Ok (w', r, evs) →
       r = World.RetId (totalCertificates (World.registry w))
       ∧ totalCertificates (World.registry w')
         = totalCertificates (World.registry w) + 1
       ∧ is_ok (getCertificate (totalCertificates (World.registry w))
                  (World.registry w')) = true)
  ∧ (∀ e c w' r evs,
       World.call e c w = Ok (w', r, evs) →
       totalCertificates (World.registry w)
         ≤ totalCertificates (World.registry w')
       ∧ ∀ id cert,
           certificates (World.registry w) !! id = Some cert →
           ∃ cert', certificates (World.registry w') !! id = Some cert'
                    ∧ cert' = with_revoked (revoked cert') cert).
Proof.
  intros Hw. apply counters_ok_reachable in Hw as [Htot Hact].
  split_and!.
  - intros id. rewrite Htot.
    unfold getCertificate, certificateExists, certificate_at.
    case_decide as Hid; [| done].
    destruct (certificates _ !! _) eqn:Hl; [done |].
    by apply lookup_missing in Hl.
  - intros e h cid holder ty w' r evs.
    rewrite world_issue, issueCertificate_cases.
    repeat case_decide; intros; simplify_eq. cbn.
    split_and!; [by rewrite Htot | done |].
    unfold getCertificate, certificateExists, certificate_at,
      certificates_length. cbn.
    rewrite Htot. unfold certificates_length.
    rewrite decide_True by (rewrite length_app; cbn; lia).
    rewrite Nat2N.id, lookup_app_r by done.
    by rewrite Nat.sub_diag.
  - intros e c w' r evs Hcall.
    destruct c as [c | h cid holder ty | i].
    + cbn in Hcall. unfold bind in Hcall.
      destruct (Governance.call _ _ _) as [[[g b] evs'] |]; simplify_eq/=.
      split; [done |]. intros id cert Hl. exists cert.
      by rewrite with_revoked_same.
    + rewrite world_issue, issueCertificate_cases in Hcall.
      repeat case_decide; simplify_eq. cbn.
      split; [lia |]. intros id cert Hl. exists cert.
      rewrite with_revoked_same. split; [| done].
      by apply lookup_app_l_Some.
    + rewrite world_revoke, revokeCertificate_cases in Hcall.
      destruct (certificates _ !! N.to_nat i) as [ci |] eqn:Hi; [| done].
      repeat case_decide; simplify_eq. cbn.
      split; [done |]. intros id cert Hl.
      destruct (decide (N.to_nat i = id)) as [<- | Hne].
      * exists (with_revoked true ci). simplify_eq.
        split; [| done].
        apply list_lookup_insert_eq. by eapply lookup_lt_Some.
      * exists cert. rewrite with_revoked_same.
        by rewrite list_lookup_insert_ne.
Qed.

(** C9. Whatever the state, after a successful call of any operation of
    either contract a certificate that was revoked before the call is still
    there and still revoked. *)
Theorem revoked_is_permanent (w : World.State) (e : Env) (c : World.Call)
    (w' : World.State) (r : World.Returned) (evs : list Event)
    (id : nat) (cert : Certificate) :
  World.call e c w = Ok (w', r, evs) →
  certificates (World.registry w) !! id = Some cert →
  revoked cert = true →
  ∃ cert', certificates (World.registry w') !! id = Some cert'
           ∧ revoked cert' = true.
Proof.
  intros Hcall Hl Hrev. exists cert. split; [| done].
  destruct c as [c | h cid holder ty | i].
  - cbn in Hcall. unfold bind in Hcall.
    destruct (Governance.call _ _ _) as [[[g b] evs'] |]; by simplify_eq/=.
  - rewrite world_issue, issueCertificate_cases in Hcall.
    repeat case_decide; simplify_eq. cbn.
    by apply lookup_app_l_Some.
  - rewrite world_revoke, revokeCertificate_cases in Hcall.
    destruct (certificates _ !! N.to_nat i) as [ci |] eqn:Hi; [| done].
    repeat case_decide; simplify_eq. cbn.
    rewrite list_lookup_insert_ne; [done |].
    intros <-. congruence.
Qed.

End RegistryIssue.

Section RegistryVerify.
Import ScholaChain RegistryProps RegistryFacts.

Variable keccak256 : string → N.

(** ** Verification *)

(** C5. verifyCertificate is a function of the certificate storage alone: it
    has no storage to return and does not read the governance registry. For
    an existing certificate, and provided the hash function does not collide
    on the stored and the supplied document hash, it returns isValid =
    (stored hash = supplied hash and not revoked) with the stored issuer,
    holder and revoked flag; for a missing id it fails NotFound. *)
Theorem verifyCertificate_contract (s : ScholaChain.State) (id : N)
    (h : string) :
  (∀ c, certificates s !! N.to_nat id = Some c →
        (keccak256 (documentHash c) = keccak256 h → documentHash c = h) →
        verifyCertificate keccak256 id h s
        = Ok (bool_decide (documentHash c = h) && negb (revoked c),
              issuer c, holder c, revoked c))
  ∧ (certificates s !! N.to_nat id = None →
       ∃ f, verifyCertificate keccak256 id h s = Fail f
            ∧ error_kind f = Some NotFound).
Proof.
  unfold verifyCertificate, certificateExists, certificate_at, bind.
  split.
  - intros c Hl Hinj. rewrite decide_True by by eapply lookup_exists.
    rewrite Hl.
    rewrite (bool_decide_ext (keccak256 (documentHash c) = keccak256 h)
               (documentHash c = h)); [done |].
    split; [done | by intros ->].
  - intros Hl. rewrite decide_False by by apply lookup_missing.
    by eexists.
Qed.

End RegistryVerify.

(** * The properties on the scenario of the specification *)

Section GovernanceScenarios.
Import Governance Props GovernanceFacts Scenario.

Lemma reachable_g_genesis allowed : reachable_by allowed g_genesis.
Proof. by apply reachable_by_genesis. Qed.

Lemma reachable_g_issuer allowed :
  allowed g_genesis (RegisterInstitution A "Acme University" "" "" ISSUER)
    = true →
  reachable_by allowed g_issuer.
Proof.
  intros Hok. apply reachable_by_after;
    [apply reachable_g_genesis | done | vm_compute; reflexivity].
Qed.

Lemma reachable_g_revoked allowed :
  allowed g_genesis (RegisterInstitution A "Acme University" "" "" ISSUER)
    = true →
  allowed g_issuer (RevokeInstitution A "fraud investigation") = true →
  reachable_by allowed g_revoked.
Proof.
  intros Hok1 Hok2. apply reachable_by_after;
    [by apply reachable_g_issuer | done | vm_compute; reflexivity].
Qed.

Lemma reachable_g_transferred allowed :
  allowed g_genesis (RegisterInstitution A "Acme University" "" "" ISSUER)
    = true →
  allowed g_issuer (RevokeInstitution A "fraud investigation") = true →
  allowed g_revoked (TransferSuperAdmin A) = true →
  reachable_by allowed g_transferred.
Proof.
  intros Hok1 Hok2 Hok3. apply reachable_by_after;
    [by apply reachable_g_revoked | done | vm_compute; reflexivity].
Qed.

(** C1, counterexample. After the ministry has registered [A] with role
    SUPER_ADMIN, two addresses have that role and only one of them is the
    pointer. *)
Lemma two_super_admins :
  reachable g_two_admins
  ∧ role (institution g_two_admins M) = SUPER_ADMIN
  ∧ role (institution g_two_admins A) = SUPER_ADMIN
  ∧ superAdmin g_two_admins = M
  ∧ ¬ single_super_admin g_two_admins.
Proof.
  split_and!; try (vm_compute; reflexivity).
  - apply reachable_by_after; [apply reachable_g_genesis | done |].
    vm_compute; reflexivity.
  - intros Hone. specialize (Hone A) as [Hone _].
    assert (HA : A = superAdmin g_two_admins)
      by (apply Hone; vm_compute; reflexivity).
    vm_compute in HA. discriminate HA.
Qed.

(** C1, witness: after registration of an issuer, its revocation and the
    transfer of the super-admin role to it, the one SUPER_ADMIN is the
    pointer. *)
Lemma single_super_admin_reachable_witness :
  reachable_by keeps_admin_role g_transferred
  ∧ single_super_admin g_transferred.
Proof.
  assert (reachable_by keeps_admin_role g_transferred) as Hg.
  { apply reachable_g_transferred; vm_compute; reflexivity. }
  split; [exact Hg |].
  exact (single_super_admin_reachable g_transferred Hg).
Defined.

(** C2, at the failing input. The ministry registers [A] as an issuer,
    revokes it and transfers the super-admin role to it. The counter was
    right before the transfer; after it the ministry is an active issuer,
    the only one, and activeIssuers is still 0, so that the new super admin
    cannot even revoke the ministry: the decrement underflows. *)
Theorem transferSuperAdmin_misses_counter :
  reachable g_transferred
  ∧ issuer_count_ok g_revoked
  ∧ role (institution g_transferred M) = ISSUER
  ∧ isActive (institution g_transferred M) = true
  ∧ count_active_issuers g_transferred = 1
  ∧ activeIssuers g_transferred = 0
  ∧ ¬ issuer_count_ok g_transferred
  ∧ call by_A (RevokeInstitution M "audit") g_transferred
    = Fail (Panic ARITHMETIC).
Proof.
  split_and!; try (vm_compute; reflexivity).
  - by apply reachable_g_transferred.
  - unfold issuer_count_ok. vm_compute. discriminate.
Qed.

(** C3, counterexample. The ministry suspends itself with
    setInstitutionStatus: it is still the super admin, by role and by
    pointer, and it is inactive. *)
Lemma super_admin_suspended :
  reachable g_admin_suspended
  ∧ superAdmin g_admin_suspended = M
  ∧ role (institution g_admin_suspended M) = SUPER_ADMIN
  ∧ isActive (institution g_admin_suspended M) = false
  ∧ ¬ admins_active g_admin_suspended.
Proof.
  split_and!; try (vm_compute; reflexivity).
  - apply reachable_by_after; [apply reachable_g_genesis | done |].
    vm_compute; reflexivity.
  - intros Hact. specialize (Hact M).
    assert (HM : isActive (institution g_admin_suspended M) = true)
      by (apply Hact; vm_compute; reflexivity).
    vm_compute in HM. discriminate HM.
Qed.

(** C3, witness: after registration of an issuer and its revocation the
    super admin is active. *)
Lemma admins_active_reachable_witness :
  reachable_by keeps_admin_active g_revoked
  ∧ admins_active g_revoked.
Proof.
  assert (reachable_by keeps_admin_active g_revoked) as Hg.
  { apply reachable_g_revoked; vm_compute; reflexivity. }
  split; [exact Hg |].
  exact (admins_active_reachable g_revoked Hg).
Defined.

(** C10, witness: [A], registered with role SUPER_ADMIN but not the
    pointer, cannot transfer the super-admin role to itself. *)
Lemma only_pointer_has_admin_power_witness :
  role (institution g_two_admins A) = SUPER_ADMIN
  ∧ sender by_A ≠ superAdmin g_two_admins
  ∧ call by_A (TransferSuperAdmin A) g_two_admins
    = Fail (Revert "ScholaChain: Only super admin")
  ∧ after by_A (TransferSuperAdmin A) g_two_admins = g_two_admins
  ∧ isSuperAdmin g_two_admins A = false.
Proof.
  assert (sender by_A ≠ superAdmin g_two_admins) as Hne
    by (vm_compute; discriminate).
  destruct (only_pointer_has_admin_power g_two_admins by_A
              (TransferSuperAdmin A) Hne) as (Hfail & _ & Hsame & Hno).
  split_and!; [vm_compute; reflexivity | exact Hne | exact Hfail
              | exact Hsame | exact Hno].
Defined.

End GovernanceScenarios.

Section RegistryScenarios.
Import ScholaChain RegistryProps RegistryFacts Scenario WorldScenario.

Lemma reachable_w_genesis : World.reachable w_genesis.
Proof. apply (World.reachable_deploy G 0 M). vm_compute; reflexivity. Qed.

Lemma reachable_w_registered : World.reachable w_registered.
Proof. apply reachable_after, reachable_w_genesis. Qed.

Lemma reachable_w_issued : World.reachable w_issued.
Proof. apply reachable_after, reachable_w_registered. Qed.

Lemma reachable_w_deactivated : World.reachable w_deactivated.
Proof. apply reachable_after, reachable_w_issued. Qed.

Lemma reachable_w_certificate_revoked :
  World.reachable w_certificate_revoked.
Proof. apply reachable_after, reachable_w_deactivated. Qed.

(** C4, witness: step 6 of the scenario. [A], deactivated by the ministry,
    revokes the certificate it issued. *)
Lemma revokeCertificate_contract_witness :
  World.reachable w_deactivated
  ∧ certificates (World.registry w_deactivated) !! N.to_nat 0 = Some cert0
  ∧ Governance.canIssueCertificates (World.governance w_deactivated)
      (sender by_A) = false
  ∧ is_ok (World.call by_A (World.RevokeCertificate 0) w_deactivated) = true.
Proof.
  destruct (revokeCertificate_contract w_deactivated by_A 0
              reachable_w_deactivated) as (_ & Hrevoke & _).
  split_and!; [exact reachable_w_deactivated | vm_compute; reflexivity ..
              | apply (Hrevoke cert0); vm_compute; reflexivity].
Defined.

(** C5, witness: the certificate of the scenario verified with its own
    hash, under a hash function without collisions. *)
Lemma verifyCertificate_contract_witness :
  certificates (World.registry w_issued) !! N.to_nat 0 = Some cert0
  ∧ verifyCertificate injective_hash 0 hashAA (World.registry w_issued)
    = Ok (bool_decide (documentHash cert0 = hashAA) && negb (revoked cert0),
          issuer cert0, holder cert0, revoked cert0).
Proof.
  split; [vm_compute; reflexivity |].
  apply (proj1 (verifyCertificate_contract injective_hash
                  (World.registry w_issued) 0 hashAA) cert0).
  - vm_compute; reflexivity.
  - intros _. reflexivity.
Defined.

(** C6, witness: [A], a registered and active issuer, issues to [student]. *)
Lemma canIssue_iff_issue_succeeds_witness :
  World.reachable w_registered
  ∧ documentHashRegex hashAA = true
  ∧ (Governance.canIssueCertificates (World.governance w_registered)
       (sender by_A) = true
     ↔ is_ok (World.call by_A
                (World.IssueCertificate hashAA "QmCID" student "Bachelor")
                w_registered) = true).
Proof.
  split_and!; [exact reachable_w_registered | vm_compute; reflexivity |].
  apply (canIssue_iff_issue_succeeds w_registered by_A hashAA "QmCID"
           student "Bachelor" reachable_w_registered).
  - vm_compute; reflexivity.
  - vm_compute; reflexivity.
  - cbn. lia.
  - vm_compute; discriminate.
  - vm_compute; discriminate.
Defined.

(** C7, counterexample. [A] issues a certificate whose document hash is 66
    letters z, not a hexadecimal string, and the call succeeds; and [B],
    who is not an issuer, gets Unauthorized, not InvalidArgument, for a call
    with an empty content reference. *)
Lemma issue_accepts_non_hex_hash :
  World.reachable w_registered
  ∧ documentHashRegex hashZZ = false
  ∧ is_ok (World.call by_A
             (World.IssueCertificate hashZZ "QmCID" student "Bachelor")
             w_registered) = true
  ∧ World.call by_B (World.IssueCertificate hashAA "" student "Bachelor")
      w_registered
    = Fail (Revert "ScholaChain: Not authorized issuer").
Proof.
  split_and!; [exact reachable_w_registered | vm_compute; reflexivity ..].
Qed.

(** C7, witness: the same call with a hash of 65 bytes fails. *)
Lemma issueCertificate_argument_checks_witness :
  Governance.canIssueCertificates (World.governance w_registered)
    (sender by_A) = true
  ∧ ¬ arguments_ok by_A "0xaa" "QmCID" student
  ∧ ∃ f, World.call by_A (World.IssueCertificate "0xaa" "QmCID" student "Bachelor")
           w_registered = Fail f
         ∧ error_kind f = Some InvalidArgument
         ∧ World.after by_A
             (World.IssueCertificate "0xaa" "QmCID" student "Bachelor")
             w_registered = w_registered.
Proof.
  assert (¬ arguments_ok by_A "0xaa" "QmCID" student) as Hbad.
  { intros [Hlen _]. vm_compute in Hlen. discriminate Hlen. }
  split_and!; [vm_compute; reflexivity | exact Hbad |].
  apply (issueCertificate_argument_checks w_registered by_A "0xaa" "QmCID"
           student "Bachelor"); [vm_compute; reflexivity | exact Hbad].
Defined.

(** C8, witness: after the first issuance the ids are those below 1. *)
Lemma certificate_ids_sequential_witness :
  World.reachable w_issued
  ∧ totalCertificates (World.registry w_issued) = 1
  ∧ ∀ id, is_ok (getCertificate id (World.registry w_issued)) = true
          ↔ id < totalCertificates (World.registry w_issued).
Proof.
  split_and!; [exact reachable_w_issued | vm_compute; reflexivity |].
  exact (proj1 (certificate_ids_sequential w_issued reachable_w_issued)).
Defined.

(** C9, witness: the revoked certificate stays revoked when the ministry
    reactivates its issuer. *)
Lemma revoked_is_permanent_witness :
  (∃ cert, certificates (World.registry w_certificate_revoked) !! 0%nat
           = Some cert ∧ revoked cert = true)
  ∧ ∃ cert', certificates (World.registry w_reactivated) !! 0%nat
             = Some cert' ∧ revoked cert' = true.
Proof.
  split; [exists (with_revoked true cert0); split; vm_compute; reflexivity |].
  apply (revoked_is_permanent w_certificate_revoked by_M
           (World.OfGovernance (Governance.ReactivateInstitution A))
           w_reactivated (World.RetBool true)
           [InstitutionStatusChanged A true M] 0%nat
           (with_revoked true cert0));
    vm_compute; reflexivity.
Defined.

End RegistryScenarios.

(** * Further properties of the governance registry *)

Section GovernanceRegistration.
Import Governance Props GovernanceProps GovernanceFacts.

Lemma registered_call g e c g' r evs a :
  call e c g = Ok (g', r, evs) →
  registered (institution g a) →
  registered (institution g' a)
  ∧ same_record (institution g a) (institution g' a).
Proof.
  unfold registered, same_record. intros Hcall Ha.
  destruct c; split_call Hcall; read_storage;
    (split; [congruence | done]).
Qed.

Lemma registered_after g e c a :
  registered (institution g a) →
  registered (institution (after e c g) a)
  ∧ same_record (institution g a) (institution (after e c g) a).
Proof.
  intros Ha. unfold after.
  destruct (call e c g) as [[[g' r] evs] |] eqn:Hcall.
  - by eapply registered_call.
  - by split.
Qed.

Lemma registerInstitution_registered e a n d w r g :
  registered (institution g a) →
  is_ok (registerInstitution e a n d w r g) = false.
Proof.
  unfold registered, registerInstitution, onlySuperAdmin. intros Ha.
  repeat case_decide; done.
Qed.

(** X1. Registration is permanent. Along any sequence of calls, an
    institution that is registered stays registered and keeps its name,
    description, website and registration time, and no later
    registerInstitution for its address succeeds. *)
Theorem registration_is_permanent (tx : list (Env * Call)) (g : State)
    (a : address) :
  registered (institution g a) →
  registered (institution (run tx g) a)
  ∧ same_record (institution g a) (institution (run tx g) a)
  ∧ ∀ e n d w r, is_ok (registerInstitution e a n d w r (run tx g)) = false.
Proof.
  revert g. induction tx as [| [e c] tx IH]; intros g Ha; cbn.
  - split_and!; [done | done |].
    intros. by apply registerInstitution_registered.
  - destruct (registered_after g e c a Ha) as [Ha' Hsame].
    destruct (IH _ Ha') as (Hreg & Hsame' & Hno).
    split_and!; [done | | done].
    unfold same_record in *. intuition congruence.
Qed.

End GovernanceRegistration.

Section GovernanceStorage.
Import Governance Props GovernanceProps GovernanceFacts.

(** An invariant of the constructor state that every successful call
    keeps holds in every reachable state. *)
Lemma reachable_invariant (I : State → Prop) :
  (∀ now m, m ≠ address0 → I (genesis now m)) →
  (∀ g e c g' r evs, I g → call e c g = Ok (g', r, evs) → I g') →
  ∀ g, reachable g → I g.
Proof.
  intros Hinit Hstep g.
  induction 1 as [self now m g evs Hc | g e c g' r evs _ IH _ Hcall].
  - unfold constructor in Hc. case_decide; simplify_eq. by apply Hinit.
  - by eapply Hstep.
Qed.

Lemma pointer_ok_call g e c g' r evs :
  pointer_ok g → call e c g = Ok (g', r, evs) → pointer_ok g'.
Proof.
  unfold pointer_ok, registered. intros (Hp & Hr & Hz) Hcall.
  destruct c; split_call Hcall; read_storage;
    (split_and!; congruence).
Qed.

Lemma pointer_ok_reachable g : reachable g → pointer_ok g.
Proof.
  apply reachable_invariant.
  - intros now m Hm. unfold pointer_ok, registered. cbn.
    rewrite !institution_genesis.
    rewrite decide_True by done. rewrite decide_False by done. done.
  - intros. by eapply pointer_ok_call.
Qed.

(** X2. In every reachable state the superAdmin pointer is a non-zero,
    registered address, and the zero address is not registered (its role
    is NONE). *)
Theorem pointer_registered (g : State) :
  reachable g →
  superAdmin g ≠ address0
  ∧ role (institution g (superAdmin g)) ≠ NONE
  ∧ role (institution g address0) = NONE.
Proof. apply pointer_ok_reachable. Qed.

Lemma unregistered_blank_call g e c g' r evs :
  unregistered_blank g → call e c g = Ok (g', r, evs) →
  unregistered_blank g'.
Proof.
  unfold unregistered_blank. intros Hinv Hcall a.
  specialize (Hinv a) as Hinva.
  destruct c; split_call Hcall; read_storage;
    intuition congruence.
Qed.

Lemma unregistered_blank_reachable g :
  reachable g → unregistered_blank g.
Proof.
  revert g. apply (reachable_invariant unregistered_blank).
  - intros now m Hm a. rewrite institution_genesis.
    case_decide; [done |]. done.
  - intros. by eapply unregistered_blank_call.
Qed.

(** X3. In every reachable state an address whose role is NONE reads as
    the zero institution (no name, inactive, no registration time) and is
    not an authorized issuer. *)
Theorem unregistered_reads_zero (g : State) (a : address) :
  reachable g →
  role (institution g a) = NONE →
  institution g a = zeroInstitution ∧ authorized g a = false.
Proof.
  intros Hg Hrole. by apply unregistered_blank_reachable.
Qed.

Lemma authorized_coherent_call g e c g' r evs :
  authorized_coherent g → call e c g = Ok (g', r, evs) →
  authorized_coherent g'.
Proof.
  unfold authorized_coherent. intros Hinv Hcall a.
  specialize (Hinv a) as Hinva.
  specialize (Hinv (superAdmin g)) as Hptr.
  destruct c; split_call Hcall; read_storage;
    try (intuition congruence);
    try (destruct (isActive _) eqn:?; intuition congruence);
    match goal with
    | r : Role |- _ =>
        destruct r; destruct (role _) eqn:?; intuition congruence
    end.
Qed.

Lemma authorized_coherent_reachable g :
  reachable g → authorized_coherent g.
Proof.
  apply reachable_invariant.
  - intros now m Hm a. rewrite institution_genesis, authorized_genesis.
    case_decide; cbn; split; congruence.
  - intros. by eapply authorized_coherent_call.
Qed.

(** X4. In every reachable state canIssueCertificates is true of an
    address exactly when its role is ISSUER and it is active; an
    institution of role SUPER_ADMIN can never issue. *)
Theorem canIssue_iff_active_issuer (g : State) (a : address) :
  reachable g →
  (canIssueCertificates g a = true
   ↔ role (institution g a) = ISSUER ∧ isActive (institution g a) = true)
  ∧ (role (institution g a) = SUPER_ADMIN →
     canIssueCertificates g a = false).
Proof.
  intros Hg. apply authorized_coherent_reachable in Hg.
  destruct (Hg a) as [Hau Hact].
  unfold canIssueCertificates. split.
  - rewrite andb_true_iff. split.
    + intros [Ha Hi]. auto.
    + intros [Hr Hi]. auto.
  - intros Hr. destruct (authorized g a) eqn:Ha; [| done].
    specialize (Hau eq_refl). congruence.
Qed.

End GovernanceStorage.

Section GovernanceCounters.
Import Governance Props GovernanceProps GovernanceFacts.

(** Writing [institutions[a]] changes the number of institutions that
    satisfy [P] by what [a] itself contributes; the zero institution does
    not satisfy [P]. *)
Lemma size_filter_write (P : Institution → Prop) `{!∀ i, Decision (P i)}
    (a : address) (i : Institution) (g : State) :
  ¬ P zeroInstitution →
  N.of_nat (size (filter (λ p, P p.2) (<[a := i]> (institutions g))))
    + (if decide (P (institution g a)) then 1 else 0)
  = N.of_nat (size (filter (λ p, P p.2) (institutions g)))
    + (if decide (P i) then 1 else 0).
Proof.
  intros Hzero. unfold institution.
  set (Q := λ p : address * Institution, P p.2).
  rewrite (map_filter_insert Q).
  assert (filter Q (institutions g) !! a
          = if decide (P (default zeroInstitution (institutions g !! a)))
            then institutions g !! a else None) as Hf.
  { destruct (institutions g !! a) as [old |] eqn:Hold; cbn.
    - case_decide.
      + by apply map_lookup_filter_Some.
      + apply map_lookup_filter_None. right. intros x ?. by simplify_eq.
    - rewrite decide_False by done.
      apply map_lookup_filter_None. by left. }
  destruct (decide (P (default zeroInstitution (institutions g !! a))))
    as [Hold | Hold].
  - destruct (institutions g !! a) as [old |] eqn:Ha; [| done].
    pose proof (map_size_ne_0_lookup_2 _ _ (mk_is_Some _ _ Hf)).
    destruct (decide (Q (a, i))) as [Hi | Hi].
    + rewrite (decide_True (P := P i)) by done.
      rewrite map_size_insert, Hf. cbn. lia.
    + rewrite (decide_False (P := P i)) by done.
      rewrite map_filter_delete, map_size_delete, Hf. cbn. lia.
  - destruct (decide (Q (a, i))) as [Hi | Hi].
    + rewrite (decide_True (P := P i)) by done.
      rewrite map_size_insert, Hf. cbn. lia.
    + rewrite (decide_False (P := P i)) by done.
      rewrite map_filter_delete, map_size_delete, Hf. cbn. lia.
Qed.

Lemma count_registered_write a i g :
  count_registered (set_institution a i g)
    + (if decide (registered (institution g a)) then 1 else 0)
  = count_registered g + (if decide (registered i) then 1 else 0).
Proof.
  unfold count_registered; cbn.
  apply (size_filter_write registered). by intros [].
Qed.

Lemma count_registered_frame_authorized a b g :
  count_registered (set_authorized a b g) = count_registered g.
Proof. reflexivity. Qed.

Lemma count_registered_frame_total n g :
  count_registered (set_totalInstitutions n g) = count_registered g.
Proof. reflexivity. Qed.

Lemma count_registered_frame_active n g :
  count_registered (set_activeIssuers n g) = count_registered g.
Proof. reflexivity. Qed.

Lemma count_registered_frame_pointer a g :
  count_registered (set_superAdmin a g) = count_registered g.
Proof. reflexivity. Qed.

Ltac frame_count :=
  repeat first
    [ rewrite count_registered_frame_authorized
    | rewrite count_registered_frame_total
    | rewrite count_registered_frame_active
    | rewrite count_registered_frame_pointer ].

Lemma count_registered_same a i g :
  registered (institution g a) → registered i →
  count_registered (set_institution a i g) = count_registered g.
Proof.
  intros Ha Hi. pose proof (count_registered_write a i g) as Hc.
  rewrite !decide_True in Hc by done. lia.
Qed.

Lemma totalInstitutions_call g e c g' r evs :
  pointer_ok g →
  totalInstitutions g = count_registered g →
  call e c g = Ok (g', r, evs) →
  totalInstitutions g' = count_registered g'.
Proof.
  intros (_ & Hptr & _) Hinv Hcall.
  destruct c as [a n d ws ro | a reason | a | a ro | a b | a].
  - split_call Hcall; frame_count;
      match goal with
      | |- context [count_registered (set_institution ?a ?i ?g)] =>
          pose proof (count_registered_write a i g) as Hc
      end;
      cbn [totalInstitutions set_institution set_authorized
           set_totalInstitutions set_activeIssuers];
      rewrite (decide_False (P := registered (institution g a))) in Hc
        by (unfold registered; tauto);
      rewrite decide_True in Hc by done; lia.
  - split_call Hcall; frame_count.
    by rewrite count_registered_same.
  - split_call Hcall; frame_count.
    by rewrite count_registered_same.
  - split_call Hcall; frame_count; by rewrite count_registered_same.
  - split_call Hcall; frame_count; by rewrite count_registered_same.
  - split_call Hcall; frame_count.
    rewrite count_registered_same.
    + by rewrite count_registered_same.
    + unfold registered. rewrite institution_set_institution.
      by rewrite decide_False by done.
    + done.
Qed.

(** X5. In every reachable state totalInstitutions is the number of
    registered institutions, those whose role is not NONE. *)
Theorem totalInstitutions_counts_registered (g : State) :
  reachable g → totalInstitutions g = count_registered g.
Proof.
  intros Hg.
  cut (pointer_ok g ∧ totalInstitutions g = count_registered g);
    [by intros [_ ?] |].
  revert g Hg. apply reachable_invariant.
  - intros now m Hm. split.
    + apply pointer_ok_reachable. by apply reachable_by_genesis.
    + unfold count_registered, genesis; cbn.
      rewrite map_filter_singleton_True by done.
      by rewrite map_size_singleton.
  - intros g e c g' r evs [Hp Ht] Hcall. split.
    + by eapply pointer_ok_call.
    + by eapply totalInstitutions_call.
Qed.

(** X6. In every state reached from the constructor state without
    transferSuperAdmin, activeIssuers is the number of institutions whose
    role is ISSUER and that are active. *)
Theorem activeIssuers_counts_without_transfer (g : State) :
  reachable_by not_transfer g → issuer_count_ok g.
Proof.
  induction 1 as [self now m g evs Hc | g e c g' r evs _ IH Hok Hcall].
  - unfold constructor in Hc. case_decide; simplify_eq.
    unfold issuer_count_ok, count_active_issuers, genesis; cbn.
    rewrite map_filter_singleton_False; [done |].
    by intros [? _].
  - eapply issuer_count_ok_call; [done | | done].
    intros a ->. done.
Qed.

End GovernanceCounters.

Section GovernanceOperations.
Import Governance Props GovernanceProps GovernanceFacts.

Lemma activeIssuers_bounded g :
  reachable g → activeIssuers g ≤ UINT256_MAX.
Proof.
  revert g. apply reachable_invariant.
  - intros now m _. cbn. unfold UINT256_MAX. lia.
  - intros g e c g' r evs Hinv Hcall.
    destruct c; split_call Hcall;
      cbn [activeIssuers set_institution set_authorized set_superAdmin
           set_totalInstitutions set_activeIssuers] in *; lia.
Qed.

Lemma institution_set_authorized a b g x :
  institution (set_authorized a b g) x = institution g x.
Proof. reflexivity. Qed.

Lemma institution_set_activeIssuers n g x :
  institution (set_activeIssuers n g) x = institution g x.
Proof. reflexivity. Qed.

Lemma institution_set_superAdmin a g x :
  institution (set_superAdmin a g) x = institution g x.
Proof. reflexivity. Qed.

Lemma authorized_set_superAdmin a g x :
  authorized (set_superAdmin a g) x = authorized g x.
Proof. reflexivity. Qed.

Ltac read_institution :=
  repeat first
    [ rewrite institution_set_authorized
    | rewrite institution_set_activeIssuers
    | rewrite institution_set_superAdmin
    | rewrite authorized_set_superAdmin
    | rewrite institution_set_institution
    | rewrite authorized_set_authorized ].

Lemma state_ext (g1 g2 : State) :
  institutions g1 = institutions g2 →
  authorizedIssuers g1 = authorizedIssuers g2 →
  superAdmin g1 = superAdmin g2 →
  totalInstitutions g1 = totalInstitutions g2 →
  activeIssuers g1 = activeIssuers g2 →
  g1 = g2.
Proof. destruct g1, g2; cbn. by intros -> -> -> -> ->. Qed.

Lemma with_isActive_back i :
  isActive i = true → with_isActive true (with_isActive false i) = i.
Proof. destruct i; cbn. by intros ->. Qed.

Lemma registered_lookup g a :
  role (institution g a) ≠ NONE →
  institutions g !! a = Some (institution g a).
Proof.
  unfold institution. by destruct (institutions g !! a).
Qed.

Lemma authorized_lookup g a :
  authorized g a = true → authorizedIssuers g !! a = Some true.
Proof.
  unfold authorized. destruct (authorizedIssuers g !! a); cbn; congruence.
Qed.

(** X7. Revocation of an institution is undone by its reactivation. In a
    reachable state, after a successful revokeInstitution of an address a
    reactivateInstitution of that address by the super admin succeeds and
    the storage is again what it was before the revocation. *)
Theorem revoke_then_reactivate (g : State) (e e' : Env) (a : address)
    (reason : string) (g1 : State) (r : bool) (evs : list Event) :
  reachable g →
  sender e' = superAdmin g →
  call e (RevokeInstitution a reason) g = Ok (g1, r, evs) →
  is_ok (call e' (ReactivateInstitution a) g1) = true
  ∧ after e' (ReactivateInstitution a) g1 = g.
Proof.
  intros Hg He' Hcall.
  pose proof (activeIssuers_bounded g Hg) as Hmax.
  destruct (authorized_coherent_reachable g Hg a) as [_ Hau].
  split_call Hcall.
  assert (institutions g !! a = Some (institution g a)) as Hla
    by by apply registered_lookup.
  assert (authorizedIssuers g !! a = Some true) as Hlb
    by by apply authorized_lookup, Hau.
  assert (call e' (ReactivateInstitution a)
            (set_activeIssuers (activeIssuers g - 1)
               (set_authorized a false
                  (set_institution a
                     (with_isActive false (institution g a)) g)))
          = Ok (g, true, [InstitutionStatusChanged a true (sender e')]))
    as Hre.
  { unfold call, reactivateInstitution, onlySuperAdmin,
      checked_incr, checked_add, bind.
    read_institution. rewrite !(decide_True (P := a = a)) by done.
    cbn [superAdmin activeIssuers set_activeIssuers set_authorized
         set_institution role isActive with_isActive] in *.
    repeat case_decide; try congruence; try lia.
    do 2 f_equal. f_equal.
    apply state_ext;
      cbn [institutions authorizedIssuers superAdmin totalInstitutions
           activeIssuers set_activeIssuers set_authorized set_institution].
    - rewrite insert_insert_eq, with_isActive_back by done.
      by apply insert_id.
    - rewrite insert_insert_eq. by apply insert_id.
    - done.
    - done.
    - lia. }
  unfold after. by rewrite Hre.
Qed.

(** X8. On an institution whose role is ISSUER the status toggle does what
    the dedicated operations do: setInstitutionStatus(a, false) succeeds
    exactly when revokeInstitution(a) does and leaves the same storage, and
    likewise setInstitutionStatus(a, true) and reactivateInstitution(a). *)
Theorem setInstitutionStatus_mirrors (g : State) (e : Env) (a : address)
    (reason : string) :
  role (institution g a) = ISSUER →
  (is_ok (call e (SetInstitutionStatus a false) g)
   = is_ok (call e (RevokeInstitution a reason) g)
   ∧ after e (SetInstitutionStatus a false) g
     = after e (RevokeInstitution a reason) g)
  ∧ (is_ok (call e (SetInstitutionStatus a true) g)
     = is_ok (call e (ReactivateInstitution a) g)
     ∧ after e (SetInstitutionStatus a true) g
       = after e (ReactivateInstitution a) g).
Proof.
  intros Hr.
  unfold after, call, setInstitutionStatus, revokeInstitution,
    reactivateInstitution, onlySuperAdmin, checked_incr, checked_decr,
    checked_add, checked_sub, bind.
  read_institution. rewrite !(decide_True (P := a = a)) by done.
  cbn [role isActive with_isActive]. rewrite Hr.
  destruct (isActive (institution g a)) eqn:Hact;
    repeat case_decide; try done; try congruence.
Qed.

Lemma not_pointer_fails g e c :
  sender e ≠ superAdmin g → is_ok (call e c g) = false.
Proof.
  intros Hne. destruct c; cbn;
    unfold registerInstitution, revokeInstitution, reactivateInstitution,
      updateInstitutionRole, setInstitutionStatus, transferSuperAdmin,
      onlySuperAdmin; by rewrite decide_False.
Qed.

(** X9. A successful transferSuperAdmin hands the administration over: the
    new address is the pointer and isSuperAdmin holds of it and it cannot
    issue; the previous admin has role ISSUER, is no longer super admin,
    can issue exactly if it is active, and every admin operation it calls
    from then on fails. *)
Theorem transferSuperAdmin_hands_over (g : State) (e : Env) (a : address)
    (g' : State) (r : bool) (evs : list Event) :
  call e (TransferSuperAdmin a) g = Ok (g', r, evs) →
  superAdmin g' = a
  ∧ isSuperAdmin g' a = true
  ∧ canIssueCertificates g' a = false
  ∧ role (institution g' (sender e)) = ISSUER
  ∧ isSuperAdmin g' (sender e) = false
  ∧ canIssueCertificates g' (sender e) = isActive (institution g (sender e))
  ∧ ∀ e' c, sender e' = sender e → is_ok (call e' c g') = false.
Proof.
  intros Hcall. split_call Hcall.
  unfold isSuperAdmin, canIssueCertificates.
  read_institution.
  cbn [superAdmin set_superAdmin set_authorized set_institution].
  assert (a ≠ sender e) as Hne by congruence.
  assert (superAdmin g ≠ a) as Hne' by congruence.
  rewrite H.
  repeat (rewrite ?decide_True by done; rewrite ?decide_False by done).
  cbn. split_and!; try done.
  - by rewrite !bool_decide_eq_true_2.
  - intros e' c He'. apply not_pointer_fails. cbn. congruence.
Qed.

End GovernanceOperations.

(** * Further properties of the certificate registry *)

Section RegistryInvariants.
Import ScholaChain RegistryProps RegistryFacts GovernanceProps
  CertificateProps.

Lemma governance_reachable w :
  World.reachable w → Governance.reachable (World.governance w).
Proof.
  induction 1 as [ga now m w Hd | w e c w' r evs _ IH Hcall].
  - unfold World.deploy, bind in Hd.
    destruct (Governance.constructor ga now m) as [[g evs] |] eqn:Hc;
      [| done].
    destruct (constructor ga) as [s |]; [| done]. simplify_eq. cbn.
    by eapply Governance.reachable_constructor.
  - destruct c as [c | h cid holder ty | id].
    + cbn in Hcall. unfold bind in Hcall.
      destruct (Governance.call e c (World.governance w))
        as [[[g b] evs'] |] eqn:Hg; [| done].
      simplify_eq. cbn. by eapply Governance.reachable_call.
    + rewrite world_issue in Hcall.
      destruct (issueCertificate _ _ _ _ _ _ _) as [[[s i] evs'] |];
        by simplify_eq.
    + rewrite world_revoke in Hcall.
      destruct (revokeCertificate _ _ _ _) as [[[s i] evs'] |];
        by simplify_eq.
Qed.

(** X10. In every reachable state totalCertificates is the length of the
    array of certificates, which getTotalCertificates returns, and
    activeCertificates is the number of certificates that are not revoked;
    so activeCertificates never exceeds totalCertificates. *)
Theorem certificate_counters (w : World.State) :
  World.reachable w →
  totalCertificates (World.registry w)
    = getTotalCertificates (World.registry w)
  ∧ activeCertificates (World.registry w)
    = count_active_certificates (World.registry w)
  ∧ activeCertificates (World.registry w)
    ≤ totalCertificates (World.registry w).
Proof.
  intros Hw. destruct (counters_ok_reachable w Hw) as [Htot Hact].
  split_and!; [done | done |].
  rewrite Htot, Hact.
  unfold count_active_certificates, certificates_length.
  pose proof (length_filter not_revoked (certificates (World.registry w))).
  lia.
Qed.

Lemma certificates_sound_call w e c w' r evs :
  World.reachable w →
  certificates_sound w →
  World.call e c w = Ok (w', r, evs) →
  certificates_sound w'.
Proof.
  intros Hw Hinv Hcall id cert Hl.
  apply governance_reachable in Hw as Hg.
  destruct c as [c | h cid holder ty | i].
  - cbn in Hcall. unfold bind in Hcall.
    destruct (Governance.call e c (World.governance w))
      as [[[g b] evs'] |] eqn:Hc; [| done].
    simplify_eq. cbn in *.
    destruct (Hinv id cert Hl) as [Hwf Hreg]. split; [done |].
    by destruct (registered_call _ _ _ _ _ _ (issuer cert) Hc Hreg).
  - rewrite world_issue, issueCertificate_cases in Hcall.
    repeat case_decide; simplify_eq. cbn in *.
    apply lookup_app_Some in Hl as [Hl | [_ Hl]]; [by apply (Hinv id) |].
    apply list_lookup_singleton_Some in Hl as [_ <-].
    destruct (authorized_coherent_reachable _ Hg (sender e)) as [Hau _].
    destruct (pointer_ok_reachable _ Hg) as (_ & _ & Hzero).
    assert (role (Governance.institution (World.governance w) (sender e))
            = ISSUER) as Hrole.
    { apply Hau. unfold Governance.canIssueCertificates in *.
      by destruct (Governance.authorized _ _). }
    unfold well_formed, registered; cbn.
    split_and!; try done; congruence.
  - rewrite world_revoke, revokeCertificate_cases in Hcall.
    destruct (certificates _ !! N.to_nat i) as [ci |] eqn:Hi; [| done].
    repeat case_decide; simplify_eq. cbn in *.
    destruct (decide (N.to_nat i = id)) as [<- | Hne].
    + rewrite list_lookup_insert_eq in Hl by by eapply lookup_lt_Some.
      simplify_eq. destruct (Hinv _ _ Hi) as [Hwf Hreg].
      split; [exact Hwf | exact Hreg].
    + rewrite list_lookup_insert_ne in Hl by done. by apply (Hinv id).
Qed.

Lemma certificates_sound_reachable w :
  World.reachable w → certificates_sound w.
Proof.
  induction 1 as [ga now m w Hd | w e c w' r evs Hw IH Hcall].
  - unfold World.deploy, bind in Hd.
    destruct (Governance.constructor ga now m) as [[g evs] |]; [| done].
    unfold constructor in Hd. case_decide; simplify_eq.
    intros id c Hl. done.
  - by eapply certificates_sound_call.
Qed.

(** X11. In every reachable state every stored certificate has a document
    hash of 66 bytes, a non-empty IPFS CID, a holder that is neither the
    zero address nor the issuer, and a non-zero issuer. *)
Theorem stored_certificates_well_formed (w : World.State) (id : nat)
    (c : Certificate) :
  World.reachable w →
  certificates (World.registry w) !! id = Some c →
  String.length (documentHash c) = 66%nat
  ∧ (0 < String.length (ipfsCID c))%nat
  ∧ holder c ≠ address0
  ∧ holder c ≠ issuer c
  ∧ issuer c ≠ address0.
Proof.
  intros Hw Hl. by destruct (certificates_sound_reachable w Hw id c Hl).
Qed.

(** X12. In every reachable state the issuer of every stored certificate is
    an institution registered in the governance registry, whatever has
    happened to it since the issuance. *)
Theorem certificate_issuer_registered (w : World.State) (id : nat)
    (c : Certificate) :
  World.reachable w →
  certificates (World.registry w) !! id = Some c →
  role (Governance.institution (World.governance w) (issuer c)) ≠ NONE.
Proof.
  intros Hw Hl. by destruct (certificates_sound_reachable w Hw id c Hl).
Qed.

(** X15. An issuer revoked in the governance registry cannot issue: after a
    successful revokeInstitution of an address, every issueCertificate from
    that address fails with "Not authorized issuer", whatever its arguments
    and whatever the certificate storage. *)
Theorem revoked_institution_cannot_issue (g : Governance.State) (e : Env)
    (a : address) (reason : string) (g' : Governance.State) (r : bool)
    (evs : list Event) (e' : Env) (h cid : string) (holder : address)
    (ty : string) (s : ScholaChain.State) :
  Governance.call e (Governance.RevokeInstitution a reason) g
    = Ok (g', r, evs) →
  sender e' = a →
  issueCertificate e' h cid holder ty g' s
  = Fail (Revert "ScholaChain: Not authorized issuer").
Proof.
  intros Hcall <-. GovernanceFacts.split_call Hcall.
  rewrite issueCertificate_cases.
  rewrite decide_False; [done |].
  unfold Governance.canIssueCertificates.
  change (Governance.authorized (Governance.set_activeIssuers ?n ?x) ?b)
    with (Governance.authorized x b).
  rewrite GovernanceFacts.authorized_set_authorized.
  by rewrite decide_True by done.
Qed.

End RegistryInvariants.

Section RegistryRoundTrips.
Import ScholaChain RegistryProps RegistryFacts.

Variable keccak256 : string → N.

(** X13. Issuing then verifying: after a successful issueCertificate the
    returned id verifies with the issued hash as valid and not revoked, with
    the caller as issuer and the given holder; and getCertificate returns
    the certificate as issued. *)
Theorem issue_then_verify (w : World.State) (e : Env) (h cid : string)
    (holder : address) (ty : string) (w' : World.State)
    (r : World.Returned) (evs : list Event) :
  World.call e (World.IssueCertificate h cid holder ty) w
    = Ok (w', r, evs) →
  ∃ id, r = World.RetId id
        ∧ verifyCertificate keccak256 id h (World.registry w')
          = Ok (true, sender e, holder, false)
        ∧ getCertificate id (World.registry w')
          = Ok {| documentHash := h; ipfsCID := cid; issuer := sender e;
                  holder := holder; issuedAt := timestamp e;
                  revoked := false; certificateType := ty |}.
Proof.
  rewrite world_issue, issueCertificate_cases.
  repeat case_decide; intros; simplify_eq.
  exists (certificates_length (World.registry w)). split; [done |].
  unfold verifyCertificate, getCertificate, certificateExists,
    certificate_at, certificates_length, bind. cbn.
  rewrite !decide_True by (rewrite length_app; cbn; lia).
  rewrite Nat2N.id, lookup_app_r, Nat.sub_diag by done. cbn.
  by rewrite bool_decide_eq_true_2.
Qed.

(** X14. Revoking then verifying: after a successful revokeCertificate the
    certificate verifies as not valid and revoked whatever hash is
    supplied, a second revocation by the same caller fails AlreadyRevoked,
    and no caller at all can revoke it again. *)
Theorem revoke_then_verify (w : World.State) (e : Env) (id : N)
    (w' : World.State) (r : World.Returned) (evs : list Event) :
  World.call e (World.RevokeCertificate id) w = Ok (w', r, evs) →
  (∀ h, ∃ c, certificates (World.registry w) !! N.to_nat id = Some c
             ∧ verifyCertificate keccak256 id h (World.registry w')
               = Ok (false, issuer c, holder c, true))
  ∧ World.call e (World.RevokeCertificate id) w'
    = Fail (Revert "ScholaChain: Certificate already revoked")
  ∧ ∀ e', is_ok (World.call e' (World.RevokeCertificate id) w') = false.
Proof.
  rewrite world_revoke, revokeCertificate_cases.
  destruct (certificates _ !! N.to_nat id) as [c |] eqn:Hl; [| done].
  repeat case_decide; intros; simplify_eq.
  assert (certificates (World.registry w) !! N.to_nat id = Some c) as Hl'
    by done.
  apply lookup_lt_Some in Hl' as Hlt.
  split_and!.
  - intros h. exists c. split; [done |].
    unfold verifyCertificate, certificateExists, certificate_at,
      certificates_length, bind. cbn.
    rewrite length_insert, decide_True by lia.
    rewrite list_lookup_insert_eq by done. cbn.
    by rewrite andb_false_r.
  - rewrite world_revoke, revokeCertificate_cases. cbn.
    rewrite list_lookup_insert_eq by done. cbn.
    rewrite decide_True by done. by rewrite decide_False by done.
  - intros e'. rewrite world_revoke, revokeCertificate_cases. cbn.
    rewrite list_lookup_insert_eq by done. cbn.
    case_decide; [| done]. by rewrite decide_False by done.
Qed.

End RegistryRoundTrips.

(** * Properties of the backend utilities *)

Section AddressUtilsFacts.
Import AddressUtils.

Lemma lower_ascii_idem c : lower_ascii (lower_ascii c) = lower_ascii c.
Proof. by destruct c as [[] [] [] [] [] [] [] []]. Qed.

Lemma is_hex_digit_lower c :
  is_hex_digit (lower_ascii c) = is_hex_digit c.
Proof. by destruct c as [[] [] [] [] [] [] [] []]. Qed.

Lemma toLowerCase_idem s : toLowerCase (toLowerCase s) = toLowerCase s.
Proof.
  induction s as [| c s IH]; cbn [toLowerCase]; [done |].
  by rewrite lower_ascii_idem, IH.
Qed.

Lemma toLowerCase_length s :
  String.length (toLowerCase s) = String.length s.
Proof. induction s as [| c s IH]; cbn; congruence. Qed.

Lemma toLowerCase_hex s :
  forallb is_hex_digit (String.list_ascii_of_string (toLowerCase s))
  = forallb is_hex_digit (String.list_ascii_of_string s).
Proof.
  induction s as [| c s IH]; cbn [toLowerCase String.list_ascii_of_string
    forallb]; [done |].
  by rewrite is_hex_digit_lower, IH.
Qed.

Lemma startsWith_0x s :
  startsWith s "0x" = true
  ↔ ∃ d, s = String "0"%char (String "x"%char d).
Proof.
  unfold startsWith. split.
  - destruct s as [| c1 [| c2 d]]; [done | |].
    + destruct c1 as [[] [] [] [] [] [] [] []]; by vm_compute.
    + destruct c1 as [[] [] [] [] [] [] [] []]; try (by vm_compute);
        destruct c2 as [[] [] [] [] [] [] [] []]; try (by vm_compute).
      intros _. by exists d.
  - intros [d ->]. by destruct d; vm_compute.
Qed.

Lemma isValidEthereumAddress_inv a :
  isValidEthereumAddress a = true →
  ∃ d, a = String "0"%char (String "x"%char d)
       ∧ String.length d = 40%nat
       ∧ forallb is_hex_digit (String.list_ascii_of_string d) = true.
Proof.
  destruct a as [| c1 [| c2 d]]; try done.
  - by destruct c1 as [[] [] [] [] [] [] [] []].
  - destruct c1 as [[] [] [] [] [] [] [] []]; try done.
    destruct c2 as [[] [] [] [] [] [] [] []]; try done.
    cbn. rewrite andb_true_iff, bool_decide_eq_true. intros [Hl Hh].
    by exists d.
Qed.

Lemma isValidEthereumAddress_lower a :
  isValidEthereumAddress a = true →
  isValidEthereumAddress (toLowerCase a) = true.
Proof.
  intros (d & -> & Hl & Hh)%isValidEthereumAddress_inv.
  cbn [toLowerCase]. change (lower_ascii "0") with "0"%char.
  change (lower_ascii "x") with "x"%char.
  cbn [isValidEthereumAddress].
  rewrite toLowerCase_length, toLowerCase_hex, Hl, Hh. done.
Qed.

Lemma normalizeAddress_valid a :
  isValidEthereumAddress a = true →
  normalizeAddress a = Some (toLowerCase a).
Proof.
  intros Hv. unfold normalizeAddress. rewrite Hv. cbn [negb].
  destruct (isValidEthereumAddress_inv a Hv) as (d & -> & Hl & _).
  rewrite (proj2 (startsWith_0x _)) by by exists d.
  cbn [String.length]. rewrite Hl. done.
Qed.

Lemma normalizeAddress_invalid a :
  isValidEthereumAddress a = false → normalizeAddress a = None.
Proof. intros Hv. unfold normalizeAddress. by rewrite Hv. Qed.

(** X16. normalizeAddress returns null exactly for the strings that are not
    a 0x-prefixed address of 40 hexadecimal digits, and for the others the
    address in lower case, which is again a valid address and its own
    normal form; validateAndNormalizeAddress throws exactly when
    normalizeAddress returns null. *)
Theorem normalizeAddress_spec (a : string) :
  (isValidEthereumAddress a = false
   ∧ normalizeAddress a = None
   ∧ validateAndNormalizeAddress a
     = inl (Error ("Invalid Ethereum address: " +:+ a)))
  ∨ (isValidEthereumAddress a = true
     ∧ normalizeAddress a = Some (toLowerCase a)
     ∧ validateAndNormalizeAddress a = inr (toLowerCase a)
     ∧ isValidEthereumAddress (toLowerCase a) = true
     ∧ normalizeAddress (toLowerCase a) = Some (toLowerCase a)).
Proof.
  unfold validateAndNormalizeAddress.
  destruct (isValidEthereumAddress a) eqn:Hv.
  - right. rewrite (normalizeAddress_valid a Hv).
    assert (isValidEthereumAddress (toLowerCase a) = true) as Hv'
      by by apply isValidEthereumAddress_lower.
    split_and!; try done.
    by rewrite (normalizeAddress_valid _ Hv'), toLowerCase_idem.
  - left. by rewrite (normalizeAddress_invalid a Hv).
Qed.

Lemma areAddressesEqual_iff a b :
  areAddressesEqual a b = true
  ↔ isValidEthereumAddress a = true
    ∧ isValidEthereumAddress b = true
    ∧ toLowerCase a = toLowerCase b.
Proof.
  unfold areAddressesEqual.
  destruct (isValidEthereumAddress a) eqn:Ha.
  - rewrite (normalizeAddress_valid a Ha).
    destruct (isValidEthereumAddress b) eqn:Hb.
    + rewrite (normalizeAddress_valid b Hb), !toLowerCase_idem.
      rewrite bool_decide_eq_true. intuition congruence.
    + rewrite (normalizeAddress_invalid b Hb). intuition congruence.
  - rewrite (normalizeAddress_invalid a Ha). intuition congruence.
Qed.

(** X17. areAddressesEqual holds of two strings exactly when both are valid
    addresses that differ at most in the case of their letters. It is
    symmetric and transitive, it holds of a string and itself exactly when
    the string is a valid address, and a string is equal in this sense to
    its normal form. *)
Theorem areAddressesEqual_spec (a b c : string) :
  (areAddressesEqual a b = true
   ↔ isValidEthereumAddress a = true
     ∧ isValidEthereumAddress b = true
     ∧ toLowerCase a = toLowerCase b)
  ∧ areAddressesEqual a b = areAddressesEqual b a
  ∧ (areAddressesEqual a b = true → areAddressesEqual b c = true →
     areAddressesEqual a c = true)
  ∧ areAddressesEqual a a = isValidEthereumAddress a
  ∧ (∀ n, normalizeAddress a = Some n → areAddressesEqual a n = true).
Proof.
  split_and!.
  - apply areAddressesEqual_iff.
  - apply eq_true_iff_eq. rewrite !areAddressesEqual_iff. intuition congruence.
  - rewrite !areAddressesEqual_iff. intuition congruence.
  - apply eq_true_iff_eq. rewrite areAddressesEqual_iff. intuition congruence.
  - intros n Hn. destruct (isValidEthereumAddress a) eqn:Ha.
    + rewrite (normalizeAddress_valid a Ha) in Hn. simplify_eq.
      apply areAddressesEqual_iff.
      by rewrite isValidEthereumAddress_lower, toLowerCase_idem.
    + by rewrite (normalizeAddress_invalid a Ha) in Hn.
Qed.

End AddressUtilsFacts.

Section HashServiceFacts.
Import AddressUtils HashService.

Lemma normalizeHash_prefixed d :
  normalizeHash (String "0"%char (String "x"%char d))
  = String "0"%char (String "x"%char d).
Proof.
  unfold normalizeHash. by rewrite (proj2 (startsWith_0x _)) by by exists d.
Qed.

Lemma normalizeHash_bare s :
  startsWith s "0x" = false →
  normalizeHash s = String "0"%char (String "x"%char s).
Proof. intros Hs. unfold normalizeHash. by rewrite Hs. Qed.

Lemma is_hex64_not_prefixed s :
  is_hex64 s = true → startsWith s "0x" = false.
Proof.
  intros Hh. destruct (startsWith s "0x") eqn:Hs; [| done].
  apply startsWith_0x in Hs as [d ->].
  unfold is_hex64 in Hh. cbn in Hh.
  by rewrite andb_false_r in Hh.
Qed.

Lemma documentHashRegex_prefixed d :
  documentHashRegex (String "0"%char (String "x"%char d)) = is_hex64 d.
Proof. reflexivity. Qed.

Lemma isValidSHA256Hash_normal h :
  isValidSHA256Hash h = documentHashRegex (normalizeHash h).
Proof.
  destruct (startsWith h "0x") eqn:Hs.
  - apply startsWith_0x in Hs as [d ->].
    by rewrite normalizeHash_prefixed.
  - rewrite (normalizeHash_bare h Hs), documentHashRegex_prefixed.
    destruct h as [| c1 [| c2 d]]; [done | |].
    + by destruct c1 as [[] [] [] [] [] [] [] []].
    + destruct c1 as [[] [] [] [] [] [] [] []]; try done.
      destruct c2 as [[] [] [] [] [] [] [] []]; try done.
      rewrite (proj2 (startsWith_0x _)) in Hs by by exists d. done.
Qed.

Lemma normalizeHash_idem h :
  normalizeHash (normalizeHash h) = normalizeHash h.
Proof.
  destruct (startsWith h "0x") eqn:Hs.
  - apply startsWith_0x in Hs as [d ->].
    by rewrite !normalizeHash_prefixed.
  - rewrite (normalizeHash_bare h Hs). apply normalizeHash_prefixed.
Qed.

(** X18. The two formats of a document hash agree up to normalizeHash: a
    string passes isValidSHA256Hash exactly when its normal form passes the
    strict format of the request schemas, 0x followed by 64 hexadecimal
    digits, which has the 66 bytes issueCertificate asks for; normalizeHash
    leaves a normal form unchanged. *)
Theorem normalizeHash_spec (h : string) :
  isValidSHA256Hash h = documentHashRegex (normalizeHash h)
  ∧ (isValidSHA256Hash h = true →
     String.length (normalizeHash h) = 66%nat)
  ∧ normalizeHash (normalizeHash h) = normalizeHash h
  ∧ (documentHashRegex h = true → normalizeHash h = h).
Proof.
  split_and!.
  - apply isValidSHA256Hash_normal.
  - rewrite isValidSHA256Hash_normal. apply documentHashRegex_length.
  - apply normalizeHash_idem.
  - intros Hr. destruct h as [| c1 [| c2 d]]; try done.
    + by destruct c1 as [[] [] [] [] [] [] [] []].
    + destruct c1 as [[] [] [] [] [] [] [] []]; try done.
      destruct c2 as [[] [] [] [] [] [] [] []]; try done.
      apply normalizeHash_prefixed.
Qed.

(** X19. compareHashes only forgives a missing 0x prefix: it holds of a
    hash and its normal form, it is symmetric and transitive, two hashes it
    holds of are both valid or both invalid, and two hashes in normal form
    are equal in its sense only if they are the same string. *)
Theorem compareHashes_spec (h1 h2 h3 : string) :
  compareHashes h1 (normalizeHash h1) = true
  ∧ compareHashes h1 h2 = compareHashes h2 h1
  ∧ (compareHashes h1 h2 = true → compareHashes h2 h3 = true →
     compareHashes h1 h3 = true)
  ∧ (compareHashes h1 h2 = true →
     isValidSHA256Hash h1 = isValidSHA256Hash h2)
  ∧ (startsWith h1 "0x" = true → startsWith h2 "0x" = true →
     compareHashes h1 h2 = true → h1 = h2).
Proof.
  unfold compareHashes. cbn zeta.
  rewrite !bool_decide_eq_true. split_and!.
  - by rewrite normalizeHash_idem.
  - apply bool_decide_ext. intuition congruence.
  - congruence.
  - rewrite !isValidSHA256Hash_normal. by intros ->.
  - intros [d1 ->]%startsWith_0x [d2 ->]%startsWith_0x.
    by rewrite !normalizeHash_prefixed.
Qed.

End HashServiceFacts.

Section CertificateIdSchemaFacts.
Import CertificateIdSchema ScholaChain RegistryFacts.

Lemma digit_zero c :
  is_digit c = true →
  (Ascii.N_of_ascii c - 48 = 0 ↔ Ascii.eqb c "0" = true).
Proof.
  destruct c as [[] [] [] [] [] [] [] []]; vm_compute; intuition congruence.
Qed.

Lemma decimal_fold_zero (l : list Ascii.ascii) (v : N) :
  forallb is_digit l = true →
  (fold_left (λ v a, 10 * v + (Ascii.N_of_ascii a - 48)) l v = 0
   ↔ v = 0 ∧ forallb (λ c, Ascii.eqb c "0") l = true).
Proof.
  revert v. induction l as [| c l IH]; intros v Hd; cbn in *.
  - intuition.
  - apply andb_true_iff in Hd as [Hc Hl].
    rewrite (IH _ Hl), andb_true_iff, <- (digit_zero c Hc).
    intuition lia.
Qed.

(** X20. certificateIdSchema accepts the strings of decimal digits that are
    not all zeros, and only them: a string that writes 0 is rejected. Yet in
    every reachable state with a certificate, the first one has id 0 and
    getCertificate(0) succeeds, so no id accepted by the schema of
    GET /certificates/:id denotes the first certificate. *)
Theorem certificateIdSchema_rejects_first_id (w : World.State) (id : string) :
  World.reachable w →
  0 < totalCertificates (World.registry w) →
  is_ok (getCertificate 0 (World.registry w)) = true
  ∧ accepts id
    = numeric_string id
      && negb (forallb (λ c, Ascii.eqb c "0")
                 (String.list_ascii_of_string id))
  ∧ (accepts id = true → decimal_value id ≠ 0).
Proof.
  intros Hw Hpos. destruct (counters_ok_reachable w Hw) as [Htot _].
  split_and!.
  - unfold getCertificate, certificateExists, certificate_at.
    rewrite decide_True by by rewrite <- Htot.
    destruct (certificates _ !! _) eqn:Hl; [done |].
    apply lookup_ge_None in Hl. unfold certificates_length in Htot. lia.
  - unfold accepts, numeric_string.
    destruct (bool_decide (id = "")); [done |]. cbn [negb andb].
    destruct (forallb is_digit _) eqn:Hd; [| done]. cbn [andb].
    apply eq_true_iff_eq.
    rewrite N.ltb_lt, negb_true_iff, <- not_true_iff_false.
    unfold decimal_value.
    pose proof (decimal_fold_zero _ 0 Hd) as Hz.
    set (v := fold_left _ _ _) in *. split.
    + intros Hv Hall. assert (v = 0) by by apply Hz. lia.
    + intros Hall. destruct (N.eq_dec v 0) as [Hv | Hv]; [| lia].
      apply Hz in Hv as [_ Hv]. done.
  - unfold accepts. rewrite andb_true_iff, N.ltb_lt. lia.
Qed.

End CertificateIdSchemaFacts.

Section GovernanceFrame.
Import Governance Props GovernanceProps GovernanceFacts Scenario.

(** X21. An admin operation changes the record and the authorization of
    the address it names and of no other; transferSuperAdmin changes those
    of the previous admin as well. *)
Theorem calls_touch_only_their_target (g : State) (e : Env) (c : Call)
    (g' : State) (r : bool) (evs : list Event) (b : address) :
  call e c g = Ok (g', r, evs) →
  b ≠ target c →
  (b = superAdmin g → ∀ a, c ≠ TransferSuperAdmin a) →
  institution g' b = institution g b ∧ authorized g' b = authorized g b.
Proof.
  intros Hcall Hb Hptr.
  destruct c as [a n d ws ro | a reason | a | a ro | a s | a];
    cbn in Hb; split_call Hcall; read_storage; try done.
  all: by destruct (Hptr eq_refl a).
Qed.

(** X22. The pointer is never refused as unauthorized: a call of an admin
    operation by the superAdmin pointer that fails does not fail with an
    Unauthorized error, whatever the role and the status of the pointer's
    own institution. *)
Theorem pointer_never_unauthorized (g : State) (e : Env) (c : Call)
    (f : failure) :
  sender e = superAdmin g →
  call e c g = Fail f →
  error_kind f ≠ Some Unauthorized.
Proof.
  intros Hs Hcall.
  destruct c; split_call Hcall; by vm_compute.
Qed.

(** X21, witness: revoking [A] leaves the ministry's record alone. *)
Lemma calls_touch_only_their_target_witness :
  is_ok (call by_M (RevokeInstitution A "fraud investigation") g_issuer)
    = true
  ∧ institution g_revoked M = institution g_issuer M.
Proof.
  assert (is_ok (call by_M (RevokeInstitution A "fraud investigation")
                   g_issuer) = true) as Hok by (vm_compute; reflexivity).
  destruct (after_ok _ _ _ Hok) as (r & evs & Hcall).
  split; [exact Hok |].
  refine (proj1 (calls_touch_only_their_target g_issuer by_M _ _ r evs M
                   Hcall _ _)).
  - vm_compute; discriminate.
  - intros _ a; discriminate.
Defined.

(** X22, witness: the suspended ministry registering the zero address
    fails on the address, not on the authorization. *)
Lemma pointer_never_unauthorized_witness :
  sender by_M = superAdmin g_admin_suspended
  ∧ isActive (institution g_admin_suspended M) = false
  ∧ call by_M (RegisterInstitution address0 "Acme University" "" "" ISSUER)
      g_admin_suspended
    = Fail (Revert "ScholaChain: Invalid address")
  ∧ error_kind (Revert "ScholaChain: Invalid address") ≠ Some Unauthorized.
Proof.
  assert (sender by_M = superAdmin g_admin_suspended) as Hs
    by (vm_compute; reflexivity).
  assert (call by_M
            (RegisterInstitution address0 "Acme University" "" "" ISSUER)
            g_admin_suspended
          = Fail (Revert "ScholaChain: Invalid address")) as Hf
    by (vm_compute; reflexivity).
  split_and!; [exact Hs | vm_compute; reflexivity | exact Hf |].
  exact (pointer_never_unauthorized g_admin_suspended by_M _ _ Hs Hf).
Defined.

End GovernanceFrame.

(** * The further properties on the scenario of the specification *)

Section GovernanceExamples.
Import Governance Props GovernanceProps GovernanceFacts Scenario.

Lemma plain_reachable_g_issuer : reachable g_issuer.
Proof. by apply reachable_g_issuer. Qed.

Lemma plain_reachable_g_revoked : reachable g_revoked.
Proof. by apply reachable_g_revoked. Qed.

Lemma plain_reachable_g_transferred : reachable g_transferred.
Proof. by apply reachable_g_transferred. Qed.

(** X1, witness: [A] stays registered through its revocation and the
    transfer of the super-admin role to it. *)
Lemma registration_is_permanent_witness :
  registered (institution g_issuer A)
  ∧ registered
      (institution
         (run [(by_M, RevokeInstitution A "fraud investigation");
               (by_M, TransferSuperAdmin A)] g_issuer) A).
Proof.
  assert (registered (institution g_issuer A)) as Hreg
    by (vm_compute; discriminate).
  split; [exact Hreg |].
  exact (proj1 (registration_is_permanent
                  [(by_M, RevokeInstitution A "fraud investigation");
                   (by_M, TransferSuperAdmin A)] g_issuer A Hreg)).
Defined.

(** X2, witness: after the transfer the pointer is [A], registered. *)
Lemma pointer_registered_witness :
  reachable g_transferred
  ∧ superAdmin g_transferred ≠ address0
  ∧ role (institution g_transferred (superAdmin g_transferred)) ≠ NONE
  ∧ role (institution g_transferred address0) = NONE.
Proof.
  split; [exact plain_reachable_g_transferred |].
  exact (pointer_registered g_transferred plain_reachable_g_transferred).
Defined.

(** X3, witness: [B] was never registered. *)
Lemma unregistered_reads_zero_witness :
  reachable g_issuer
  ∧ role (institution g_issuer B) = NONE
  ∧ institution g_issuer B = zeroInstitution
  ∧ authorized g_issuer B = false.
Proof.
  assert (role (institution g_issuer B) = NONE) as Hrole
    by (vm_compute; reflexivity).
  split_and!; [exact plain_reachable_g_issuer | exact Hrole | ..];
    apply (unregistered_reads_zero g_issuer B plain_reachable_g_issuer Hrole).
Defined.

(** X4, witness: [A], an active issuer, can issue. *)
Lemma canIssue_iff_active_issuer_witness :
  reachable g_issuer
  ∧ (canIssueCertificates g_issuer A = true
     ↔ role (institution g_issuer A) = ISSUER
       ∧ isActive (institution g_issuer A) = true).
Proof.
  split; [exact plain_reachable_g_issuer |].
  exact (proj1 (canIssue_iff_active_issuer g_issuer A
                  plain_reachable_g_issuer)).
Defined.

(** X5, witness: two institutions are registered after the transfer. *)
Lemma totalInstitutions_counts_registered_witness :
  reachable g_transferred
  ∧ totalInstitutions g_transferred = count_registered g_transferred.
Proof.
  split; [exact plain_reachable_g_transferred |].
  exact (totalInstitutions_counts_registered g_transferred
           plain_reachable_g_transferred).
Defined.

(** X6, witness: the counter is right after registration and revocation. *)
Lemma activeIssuers_counts_without_transfer_witness :
  reachable_by not_transfer g_revoked ∧ issuer_count_ok g_revoked.
Proof.
  assert (reachable_by not_transfer g_revoked) as Hg
    by (apply reachable_g_revoked; reflexivity).
  split; [exact Hg |].
  exact (activeIssuers_counts_without_transfer g_revoked Hg).
Defined.

(** X7, witness: reactivating [A] gives back the state before its
    revocation. *)
Lemma revoke_then_reactivate_witness :
  reachable g_issuer
  ∧ sender by_M = superAdmin g_issuer
  ∧ is_ok (call by_M (RevokeInstitution A "fraud investigation") g_issuer)
    = true
  ∧ after by_M (ReactivateInstitution A) g_revoked = g_issuer.
Proof.
  assert (sender by_M = superAdmin g_issuer) as Hs
    by (vm_compute; reflexivity).
  assert (is_ok (call by_M (RevokeInstitution A "fraud investigation")
                   g_issuer) = true) as Hok by (vm_compute; reflexivity).
  destruct (after_ok _ _ _ Hok) as (r & evs & Hcall).
  split_and!; [exact plain_reachable_g_issuer | exact Hs | exact Hok |].
  exact (proj2 (revoke_then_reactivate g_issuer by_M by_M A
                  "fraud investigation" _ r evs plain_reachable_g_issuer
                  Hs Hcall)).
Defined.

(** X8, witness: on the issuer [A] the toggle and the revocation agree. *)
Lemma setInstitutionStatus_mirrors_witness :
  role (institution g_issuer A) = ISSUER
  ∧ after by_M (SetInstitutionStatus A false) g_issuer
    = after by_M (RevokeInstitution A "fraud investigation") g_issuer.
Proof.
  assert (role (institution g_issuer A) = ISSUER) as Hrole
    by (vm_compute; reflexivity).
  split; [exact Hrole |].
  exact (proj2 (proj1 (setInstitutionStatus_mirrors g_issuer by_M A
                         "fraud investigation" Hrole))).
Defined.

(** X9, witness: step 7 of the scenario. *)
Lemma transferSuperAdmin_hands_over_witness :
  is_ok (call by_M (TransferSuperAdmin A) g_revoked) = true
  ∧ superAdmin g_transferred = A
  ∧ isSuperAdmin g_transferred A = true.
Proof.
  assert (is_ok (call by_M (TransferSuperAdmin A) g_revoked) = true) as Hok
    by (vm_compute; reflexivity).
  destruct (after_ok _ _ _ Hok) as (r & evs & Hcall).
  destruct (transferSuperAdmin_hands_over g_revoked by_M A _ r evs Hcall)
    as (Hp & Ha & _).
  split_and!; [exact Hok | exact Hp | exact Ha].
Defined.

End GovernanceExamples.

Section RegistryExamples.
Import ScholaChain RegistryProps RegistryFacts Scenario WorldScenario.

(** X10, witness: one certificate, revoked. *)
Lemma certificate_counters_witness :
  World.reachable w_certificate_revoked
  ∧ totalCertificates (World.registry w_certificate_revoked)
    = getTotalCertificates (World.registry w_certificate_revoked)
  ∧ activeCertificates (World.registry w_certificate_revoked)
    = count_active_certificates (World.registry w_certificate_revoked).
Proof.
  destruct (certificate_counters w_certificate_revoked
              reachable_w_certificate_revoked) as (Ht & Ha & _).
  split_and!; [exact reachable_w_certificate_revoked | exact Ht | exact Ha].
Defined.

(** X11, witness: the certificate of the scenario. *)
Lemma stored_certificates_well_formed_witness :
  World.reachable w_deactivated
  ∧ certificates (World.registry w_deactivated) !! 0%nat = Some cert0
  ∧ String.length (documentHash cert0) = 66%nat
  ∧ holder cert0 ≠ issuer cert0.
Proof.
  assert (certificates (World.registry w_deactivated) !! 0%nat = Some cert0)
    as Hl by (vm_compute; reflexivity).
  destruct (stored_certificates_well_formed w_deactivated 0%nat cert0
              reachable_w_deactivated Hl) as (Hh & _ & _ & Hne & _).
  split_and!; [exact reachable_w_deactivated | exact Hl | exact Hh
              | exact Hne].
Defined.

(** X12, witness: [A] is still registered after its deactivation. *)
Lemma certificate_issuer_registered_witness :
  World.reachable w_deactivated
  ∧ certificates (World.registry w_deactivated) !! 0%nat = Some cert0
  ∧ role (Governance.institution (World.governance w_deactivated)
            (issuer cert0)) ≠ NONE.
Proof.
  assert (certificates (World.registry w_deactivated) !! 0%nat = Some cert0)
    as Hl by (vm_compute; reflexivity).
  split_and!; [exact reachable_w_deactivated | exact Hl |].
  exact (certificate_issuer_registered w_deactivated 0%nat cert0
           reachable_w_deactivated Hl).
Defined.

(** X13, witness: step 3 of the scenario, then a verification. *)
Lemma issue_then_verify_witness :
  is_ok (World.call by_A
           (World.IssueCertificate hashAA "QmCID" student "Bachelor")
           w_registered) = true
  ∧ ∃ id, verifyCertificate injective_hash id hashAA (World.registry w_issued)
          = Ok (true, sender by_A, student, false).
Proof.
  assert (is_ok (World.call by_A
                   (World.IssueCertificate hashAA "QmCID" student "Bachelor")
                   w_registered) = true) as Hok by (vm_compute; reflexivity).
  destruct (world_after_ok _ _ _ Hok) as (r & evs & Hcall).
  destruct (issue_then_verify injective_hash w_registered by_A hashAA
              "QmCID" student "Bachelor" _ r evs Hcall)
    as (id & _ & Hv & _).
  split; [exact Hok |]. exists id. exact Hv.
Defined.

(** X14, witness: step 6 of the scenario, then a second revocation. *)
Lemma revoke_then_verify_witness :
  is_ok (World.call by_A (World.RevokeCertificate 0) w_deactivated) = true
  ∧ World.call by_A (World.RevokeCertificate 0) w_certificate_revoked
    = Fail (Revert "ScholaChain: Certificate already revoked").
Proof.
  assert (is_ok (World.call by_A (World.RevokeCertificate 0) w_deactivated)
          = true) as Hok by (vm_compute; reflexivity).
  destruct (world_after_ok _ _ _ Hok) as (r & evs & Hcall).
  destruct (revoke_then_verify injective_hash w_deactivated by_A 0 _ r evs
              Hcall) as (_ & Hagain & _).
  split; [exact Hok | exact Hagain].
Defined.

(** X15, witness: step 5 of the scenario. *)
Lemma revoked_institution_cannot_issue_witness :
  is_ok (Governance.call by_M
           (Governance.RevokeInstitution A "fraud investigation") g_issuer)
    = true
  ∧ issueCertificate by_A hashAA "QmCID" student "Bachelor" g_revoked
      (World.registry w_issued)
    = Fail (Revert "ScholaChain: Not authorized issuer").
Proof.
  assert (is_ok (Governance.call by_M
                   (Governance.RevokeInstitution A "fraud investigation")
                   g_issuer) = true) as Hok by (vm_compute; reflexivity).
  destruct (GovernanceFacts.after_ok _ _ _ Hok) as (r & evs & Hcall).
  split; [exact Hok |].
  exact (revoked_institution_cannot_issue g_issuer by_M A
           "fraud investigation" _ r evs by_A hashAA "QmCID" student
           "Bachelor" (World.registry w_issued) Hcall eq_refl).
Defined.

(** X20, witness: the id 0 of the first certificate. *)
Lemma certificateIdSchema_rejects_first_id_witness :
  World.reachable w_issued
  ∧ 0 < totalCertificates (World.registry w_issued)
  ∧ is_ok (getCertificate 0 (World.registry w_issued)) = true
  ∧ CertificateIdSchema.accepts "0" = false.
Proof.
  assert (0 < totalCertificates (World.registry w_issued)) as Hpos
    by (vm_compute; reflexivity).
  destruct (certificateIdSchema_rejects_first_id w_issued "0"
              reachable_w_issued Hpos) as (Hfirst & _ & _).
  split_and!; [exact reachable_w_issued | exact Hpos | exact Hfirst
              | vm_compute; reflexivity].
Defined.

End RegistryExamples.

Section UtilityExamples.
Import AddressUtils HashService UtilScenario WorldScenario.

(** X16, witness: an address in mixed case is normalized to lower case. *)
Lemma normalizeAddress_spec_witness :
  isValidEthereumAddress addrMixed = true
  ∧ normalizeAddress addrMixed = Some (toLowerCase addrMixed).
Proof.
  split; [vm_compute; reflexivity |].
  destruct (normalizeAddress_spec addrMixed) as [(Hv & _) | (_ & Hn & _)].
  - vm_compute in Hv. discriminate Hv.
  - exact Hn.
Defined.

(** X17, witness: an address equals its normal form. *)
Lemma areAddressesEqual_spec_witness :
  normalizeAddress addrMixed = Some (toLowerCase addrMixed)
  ∧ areAddressesEqual addrMixed (toLowerCase addrMixed) = true.
Proof.
  assert (normalizeAddress addrMixed = Some (toLowerCase addrMixed)) as Hn
    by (vm_compute; reflexivity).
  split; [exact Hn |].
  destruct (areAddressesEqual_spec addrMixed addrMixed addrMixed)
    as (_ & _ & _ & _ & Hnorm).
  exact (Hnorm _ Hn).
Defined.

(** X18, witness: a hash without prefix gets its 66 bytes. *)
Lemma normalizeHash_spec_witness :
  isValidSHA256Hash bareAA = true
  ∧ String.length (normalizeHash bareAA) = 66%nat.
Proof.
  assert (isValidSHA256Hash bareAA = true) as Hv
    by (vm_compute; reflexivity).
  split; [exact Hv |].
  destruct (normalizeHash_spec bareAA) as (_ & Hlen & _).
  exact (Hlen Hv).
Defined.

(** X19, witness: a hash and the same hash with its prefix. *)
Lemma compareHashes_spec_witness :
  compareHashes bareAA hashAA = true
  ∧ isValidSHA256Hash bareAA = isValidSHA256Hash hashAA.
Proof.
  assert (compareHashes bareAA hashAA = true) as Hc
    by (vm_compute; reflexivity).
  split; [exact Hc |].
  destruct (compareHashes_spec bareAA hashAA hashAA)
    as (_ & _ & _ & Hvalid & _).
  exact (Hvalid Hc).
Defined.

End UtilityExamples.

Section UnregisteredAddress.
Import Governance Props GovernanceProps GovernanceFacts Scenario.

(** X23. An address that was never registered: in every reachable state all
    the view functions answer for it with the zero value (getInstitution the
    zero institution, the role NONE, not active, not revoked, cannot issue,
    not super admin), and every operation that needs a registered target
    (revoke, reactivate, updateInstitutionRole, setInstitutionStatus,
    transferSuperAdmin) fails when it names it. *)
Theorem unregistered_address (g : State) (a : address) :
  reachable g →
  role (institution g a) = NONE →
  getInstitution g a = zeroInstitution
  ∧ getInstitutionRole g a = NONE
  ∧ isInstitutionActive g a = false
  ∧ isInstitutionRevoked g a = false
  ∧ canIssueCertificates g a = false
  ∧ isSuperAdmin g a = false
  ∧ ∀ e c, target c = a →
           (∀ n d w r, c ≠ RegisterInstitution a n d w r) →
           is_ok (call e c g) = false.
Proof.
  intros Hg Hrole.
  destruct (unregistered_blank_reachable g Hg a Hrole) as [Hz Ha].
  unfold getInstitution, getInstitutionRole, isInstitutionActive,
    isInstitutionRevoked, canIssueCertificates, isSuperAdmin.
  rewrite Ha, Hz. cbn. split_and!; try done.
  intros e c <- Hc.
  destruct c as [a n d ws ro | a reason | a | a ro | a s | a]; cbn in *.
  - by destruct (Hc n d ws ro).
  - unfold revokeInstitution, onlySuperAdmin. repeat case_decide; done.
  - unfold reactivateInstitution, onlySuperAdmin. repeat case_decide; done.
  - unfold updateInstitutionRole, onlySuperAdmin. repeat case_decide; done.
  - unfold setInstitutionStatus, onlySuperAdmin. repeat case_decide; done.
  - unfold transferSuperAdmin, onlySuperAdmin. repeat case_decide; done.
Qed.

(** X23, witness: [B] in the state where only [A] has been registered. *)
Lemma unregistered_address_witness :
  reachable g_issuer
  ∧ role (institution g_issuer B) = NONE
  ∧ isInstitutionRevoked g_issuer B = false
  ∧ is_ok (call by_M (TransferSuperAdmin B) g_issuer) = false.
Proof.
  assert (reachable g_issuer) as Hg by by apply reachable_g_issuer.
  assert (role (institution g_issuer B) = NONE) as Hrole
    by (vm_compute; reflexivity).
  destruct (unregistered_address g_issuer B Hg Hrole)
    as (_ & _ & _ & Hrev & _ & _ & Hops).
  split_and!; [exact Hg | exact Hrole | exact Hrev |].
  apply Hops; [reflexivity | intros; discriminate].
Defined.

End UnregisteredAddress.
